(** * commitlint.py: the rule checks of the commit-message linter

    A shallow embedding of [commitlint.py].  A Python [str] is a Rocq
    [string]; each [ascii] stands for one code point below 256, and
    the character classes are those of CPython for that range; the
    subject-case check, whose answer depends on the case of characters
    beyond that range, is given on arbitrary code points as well.  The
    functions print diagnostics and may raise, so they live in a small
    monad that carries the lines written to standard output and a
    result that is a value, a raised exception or a [sys.exit]. *)

From Stdlib Require Import Bool Arith NArith Lia List Ascii String DecimalString.
Import ListNotations.
Open Scope string_scope.
Open Scope bool_scope.
Open Scope nat_scope.

(** ** Character classes of CPython, code points 0..255 *)

Module Char.

Definition code (c : ascii) : nat := nat_of_ascii c.

Definition between (lo hi : nat) (c : ascii) : bool :=
  (lo <=? code c) && (code c <=? hi).

(** [str.isspace] on one character: TAB..CR, FS..US, SPACE, NEL, NBSP. *)
Definition isspace (c : ascii) : bool :=
  between 9 13 c || between 28 32 c || between 133 133 c
  || between 160 160 c.

(** The line boundaries of [str.splitlines]: LF, VT, FF, CR, FS, GS,
    RS and NEL. *)
Definition islinebreak (c : ascii) : bool :=
  between 10 13 c || between 28 30 c || between 133 133 c.

(** Characters with the Uppercase property. *)
Definition isupper (c : ascii) : bool :=
  between 65 90 c || between 192 214 c || between 216 222 c.

(** Characters with the Lowercase property. *)
Definition islower (c : ascii) : bool :=
  between 97 122 c || between 170 170 c || between 181 181 c
  || between 186 186 c || between 223 246 c || between 248 255 c.

(** Titlecase characters (category Lt): the first one is U+01C5, so
    there is none among the code points an [ascii] can hold. *)
Definition istitle (c : ascii) : bool := false.

(** [str.isalpha] on one character: the letters (categories Lu, Ll, Lt,
    Lm and Lo), that is A-Z, a-z, U+00AA, U+00B5, U+00BA, U+00C0-U+00D6,
    U+00D8-U+00F6 and U+00F8-U+00FF. *)
Definition isalpha (c : ascii) : bool :=
  between 65 90 c || between 97 122 c || between 170 170 c
  || between 181 181 c || between 186 186 c || between 192 214 c
  || between 216 246 c || between 248 255 c.

Definition colon : ascii := ":"%char.
Definition CR : ascii := ascii_of_nat 13.
Definition LF : ascii := ascii_of_nat 10.

End Char.

(** ** The [str] methods the linter calls *)

Module Str.

Definition is_empty (s : string) : bool :=
  match s with EmptyString => true | String _ _ => false end.

Definition starts_with_char (c : ascii) (s : string) : bool :=
  match s with EmptyString => false | String d _ => Ascii.eqb c d end.

(** Prepend a character to the first piece of a split. *)
Definition push (c : ascii) (pieces : list string) : list string :=
  match pieces with
  | [] => [String c ""]
  | h :: t => String c h :: t
  end.

(** [s.splitlines()]: a CR immediately followed by LF is one
    boundary; no empty last line is produced after a final
    boundary. *)
Fixpoint splitlines (s : string) : list string :=
  match s with
  | EmptyString => []
  | String c rest =>
      if Ascii.eqb c Char.CR && starts_with_char Char.LF rest
      then splitlines rest
      else if Char.islinebreak c then "" :: splitlines rest
      else push c (splitlines rest)
  end.

(** [s.split()]: the maximal runs of non-whitespace characters. *)
Fixpoint split (s : string) : list string :=
  match s with
  | EmptyString => []
  | String c rest =>
      if Char.isspace c then split rest
      else match rest with
           | EmptyString => [String c ""]
           | String d _ =>
               if Char.isspace d then String c "" :: split rest
               else push c (split rest)
           end
  end.

(** [s.split(":")]: always at least one piece. *)
Fixpoint split_colon (s : string) : list string :=
  match s with
  | EmptyString => [""]
  | String c rest =>
      if Ascii.eqb c Char.colon then "" :: split_colon rest
      else push c (split_colon rest)
  end.

Fixpoint lstrip (s : string) : string :=
  match s with
  | EmptyString => ""
  | String c rest => if Char.isspace c then lstrip rest else s
  end.

Fixpoint rstrip (s : string) : string :=
  match s with
  | EmptyString => ""
  | String c rest =>
      let r := rstrip rest in
      if Char.isspace c && is_empty r then "" else String c r
  end.

(** [s.strip()] *)
Definition strip (s : string) : string := rstrip (lstrip s).

(** [":" in s] *)
Fixpoint has_colon (s : string) : bool :=
  match s with
  | EmptyString => false
  | String c rest => Ascii.eqb c Char.colon || has_colon rest
  end.

(** The character [s[-1]], when there is one. *)
Fixpoint last_char (s : string) : option ascii :=
  match s with
  | EmptyString => None
  | String c EmptyString => Some c
  | String _ rest => last_char rest
  end.

Fixpoint any (p : ascii -> bool) (s : string) : bool :=
  match s with
  | EmptyString => false
  | String c rest => p c || any p rest
  end.

(** The scan of [str.islower]: stop with [False] at the first
    uppercase or titlecase character, otherwise remember whether a
    lowercase one was seen. *)
Fixpoint islower_scan (s : string) (cased : bool) : bool :=
  match s with
  | EmptyString => cased
  | String c rest =>
      if Char.isupper c || Char.istitle c then false
      else islower_scan rest (cased || Char.islower c)
  end.

(** [s.islower()] *)
Definition islower (s : string) : bool := islower_scan s false.

(** [s.startswith(prefixes)] for a tuple of prefixes. *)
Definition startswith (prefixes : list string) (s : string) : bool :=
  existsb (fun p => String.prefix p s) prefixes.

(** [str(n)] for a non-negative integer. *)
Definition of_nat (n : nat) : string :=
  NilZero.string_of_uint (Nat.to_uint n).

End Str.

(** ** Values, exceptions and the monad of the program *)

Inductive value : Type :=
| VNone
| VBool (b : bool)
| VStr (s : string)
| VFunction (name : string)   (* a module-level function object *)
| VObject.                    (* an instance without [__bool__] or [__len__] *)

(** Truth value of an object, as tested by [if]. *)
Definition truthy (v : value) : bool :=
  match v with
  | VNone => false
  | VBool b => b
  | VStr s => negb (Str.is_empty s)
  | VFunction _ => true
  | VObject => true
  end.

Inductive exn : Type :=
| IndexError
| AttributeError
| CalledProcessError.

Inductive result (A : Type) : Type :=
| Ok (a : A)
| Raise (e : exn)
| Exit (status : nat).   (* [sys.exit(status)] *)

Arguments Ok {A} a.
Arguments Raise {A} e.
Arguments Exit {A} status.

(** A computation: the lines printed, then how it ended. *)
Definition M (A : Type) : Type := (list string * result A)%type.

Definition ret {A} (a : A) : M A := ([], Ok a).
Definition raise {A} (e : exn) : M A := ([], Raise e).
Definition print (line : string) : M unit := ([line], Ok tt).
Definition sys_exit {A} (status : nat) : M A := ([], Exit status).

Definition bind {A B} (m : M A) (k : A -> M B) : M B :=
  match m with
  | (out, Ok a) => let (out', r) := k a in ((out ++ out')%list, r)
  | (out, Raise e) => (out, Raise e)
  | (out, Exit n) => (out, Exit n)
  end.

Notation "x <- m ;; k" := (bind m (fun x => k))
  (at level 61, m at next level, right associativity).
Notation "m ;;; k" := (bind m (fun _ => k))
  (at level 61, right associativity).

(** [l[0]] and [l[-1]] on a list, [s[-1]] on a string. *)
Definition first_item {A} (l : list A) : M A :=
  match l with
  | [] => raise IndexError
  | x :: _ => ret x
  end.

Fixpoint last_item {A} (l : list A) : M A :=
  match l with
  | [] => raise IndexError
  | [x] => ret x
  | _ :: t => last_item t
  end.

Definition last_char_item (s : string) : M ascii :=
  match Str.last_char s with
  | None => raise IndexError
  | Some c => ret c
  end.

(** ** The seven checks *)

Definition conventional_commit_type : list string :=
  ["build:"; "chore:"; "ci:"; "docs:"; "feat:"; "fix:";
   "perf:"; "refactor:"; "revert:"; "style:"; "test:"].

Definition header_type_diagnostic : string :=
  "Subject type must be one of ('build:', 'chore:', 'ci:', 'docs:', 'feat:', 'fix:', 'perf:', 'refactor:', 'revert:', 'style:', 'test:')".

Definition header_type (commit_message : string) : M value :=
  commit_type <- first_item (Str.split commit_message) ;;
  if negb (Str.startswith conventional_commit_type commit_type) then
    print header_type_diagnostic ;;;
    ret (VBool true)
  else ret (VBool false).

Definition subject_empty (commit_message : string) : M value :=
  line <- first_item (Str.splitlines commit_message) ;;
  let commit_header := Str.strip line in
  commit_subject <- last_item (Str.split_colon commit_header) ;;
  if negb (Str.has_colon commit_header) || negb (truthy (VStr commit_subject))
  then
    print "Subject may not be empty." ;;;
    ret (VBool true)
  else ret (VBool false).

Definition subject_length (commit_message : string) : M value :=
  line <- first_item (Str.splitlines commit_message) ;;
  let commit_header := Str.strip line in
  if 100 <? String.length commit_header then
    print ("Subject must not be longer than 100 chars, current length is  "
           ++ Str.of_nat (String.length commit_header)) ;;;
    ret (VBool true)
  else ret (VBool false).

Definition subject_case (commit_message : string) : M value :=
  line <- first_item (Str.splitlines commit_message) ;;
  let commit_header := Str.strip line in
  commit_subject <- last_item (Str.split_colon commit_header) ;;
  if negb (Str.islower commit_subject) then
    print "Subject must be lower case." ;;;
    ret (VBool true)
  else ret (VBool false).

Definition subject_full_stop (commit_message : string) : M value :=
  line <- first_item (Str.splitlines commit_message) ;;
  let commit_header := Str.strip line in
  c <- last_char_item commit_header ;;
  if negb (Char.isalpha c) then
    print "Subject must end with alphabetic character." ;;;
    ret (VBool true)
  else ret (VBool false).

(** The [for] loop of [body_leading_blank]; falling off the end of the
    function returns [None]. *)
Fixpoint body_leading_blank_loop (lines : list string) (count : nat)
  : M value :=
  match lines with
  | [] => ret VNone
  | line :: rest =>
      let count := count + 1 in
      if (count =? 2) && negb (Str.is_empty (Str.strip line)) then
        print "Body should have a leading blank line." ;;;
        ret (VBool true)
      else body_leading_blank_loop rest count
  end.

Definition body_leading_blank (commit_message : string) : M value :=
  let count := 0 in
  body_leading_blank_loop (Str.splitlines commit_message) count.

Fixpoint body_max_length_loop (lines : list string) (count : nat)
  : M value :=
  match lines with
  | [] => ret VNone
  | line :: rest =>
      let count := count + 1 in
      if (2 <? count) && (100 <? String.length line) then
        print "Body must not have lines longer than 100 chars." ;;;
        ret (VBool true)
      else body_max_length_loop rest count
  end.

Definition body_max_length (commit_message : string) : M value :=
  let count := 0 in
  body_max_length_loop (Str.splitlines commit_message) count.

(** ** Retrieving the message and the run *)

(** What the program observes of the two [git] invocations: the return
    code of [git -C path status] and the standard output of
    [git -C path log -1 --pretty=%B]. *)
Record git : Type := {
  status_returncode : string -> nat;
  log_stdout : string -> string
}.

(** [subprocess.run(..., check=True)]: a non-zero return code raises,
    otherwise a [CompletedProcess] instance is returned. *)
Definition run_checked (returncode : nat) : M value :=
  if returncode =? 0 then ret VObject else raise CalledProcessError.

(** [commit_msg(path=".")]; an omitted argument is [None] here. *)
Definition commit_msg (g : git) (path : option string) : M value :=
  let path := match path with Some p => p | None => "." end in
  completed <- run_checked (status_returncode g path) ;;
  if truthy completed then ret (VStr (log_stdout g path))
  else ret VNone.

(** Calling a check: the first thing every check does with its
    argument is a [str] method call ([split] or [splitlines]), which an
    object that is not a string does not have. *)
Definition call (check : string -> M value) (argument : value) : M value :=
  match argument with
  | VStr s => check s
  | _ => raise AttributeError
  end.

(** [if check(...): error_count += 1] *)
Definition bump (flag : value) (error_count : nat) : nat :=
  if truthy flag then error_count + 1 else error_count.

(** The last statement of [main]: summary, banner and exit. *)
Definition report (error_count : nat) : M value :=
  if 0 <? error_count then
    print "=========================" ;;;
    print ("The commit message has " ++ Str.of_nat error_count ++ " errors.") ;;;
    sys_exit 1
  else
    print "==============================" ;;;
    print "All commit messages are valid." ;;;
    sys_exit 0.

(** [sys.argv[1]] *)
Definition argv_1 (argv : list string) : M string :=
  match argv with
  | _ :: a :: _ => ret a
  | _ => raise IndexError
  end.

(** [main()].  The name [commit_msg] in its body is the module-level
    function, [last_commit] the text that function returned. *)
Definition main (g : git) (argv : list string) : M value :=
  let error_count := 0 in
  path <- argv_1 argv ;;
  last_commit <- commit_msg g (Some path) ;;
  let commit_msg := VFunction "commit_msg" in
  f <- call header_type last_commit ;;
  let error_count := bump f error_count in
  f <- call subject_empty last_commit ;;
  let error_count := bump f error_count in
  f <- call subject_length commit_msg ;;
  let error_count := bump f error_count in
  f <- call subject_case commit_msg ;;
  let error_count := bump f error_count in
  f <- call subject_full_stop commit_msg ;;
  let error_count := bump f error_count in
  f <- call body_leading_blank commit_msg ;;
  let error_count := bump f error_count in
  f <- call body_max_length commit_msg ;;
  let error_count := bump f error_count in
  report error_count.

(** The exit status of the interpreter: the argument of [sys.exit], 1
    after an uncaught exception, 0 when the program runs to its end. *)
Definition exit_status {A} (run : M A) : nat :=
  match snd run with
  | Ok _ => 0
  | Raise _ => 1
  | Exit n => n
  end.

Definition stdout {A} (run : M A) : list string := fst run.

(** A check has flagged a violation when it returned a true value. *)
Definition flagged (run : M value) : bool :=
  match snd run with
  | Ok v => truthy v
  | _ => false
  end.

(** A check returned (it did not raise). *)
Definition returned {A} (run : M A) : bool :=
  match snd run with
  | Ok _ => true
  | _ => false
  end.

(** A repository whose latest commit has the given message. *)
Definition repository (message : string) : git :=
  {| status_returncode := fun _ => 0; log_stdout := fun _ => message |}.

(** ** Vocabulary of the specification

    The notions the specification uses to describe the checks, written
    independently of the code above so that the two can be compared. *)

Module Spec.

(** The header: the first line, trimmed (empty when there is no
    line). *)
Definition header (message : string) : string :=
  match Str.splitlines message with
  | [] => ""
  | line :: _ => Str.strip line
  end.

(** The text after the last colon; the whole text when it has no
    colon. *)
Fixpoint after_last_colon (s : string) : string :=
  match s with
  | EmptyString => ""
  | String c rest =>
      if Str.has_colon rest then after_last_colon rest
      else if Ascii.eqb c Char.colon then rest
      else s
  end.

(** The first whitespace-delimited token, when there is one. *)
Definition first_token (s : string) : option string :=
  hd_error (Str.split s).

Definition allowed (token : string) : bool :=
  Str.startswith conventional_commit_type token.

Definition contains_upper (s : string) : bool := Str.any Char.isupper s.
Definition contains_title (s : string) : bool := Str.any Char.istitle s.
Definition contains_lower (s : string) : bool := Str.any Char.islower s.
Definition nonblank (s : string) : bool :=
  Str.any (fun c => negb (Char.isspace c)) s.

(** A check that reports a violation with one diagnostic line, and
    one that reports nothing. *)
Definition violation (diagnostic : string) : M value :=
  ([diagnostic], Ok (VBool true)).
Definition no_violation : M value := ([], Ok (VBool false)).

(** The seven checks applied to the same text all return. *)
Definition all_checks_return (message : string) : bool :=
  returned (header_type message) && returned (subject_empty message)
  && returned (subject_length message) && returned (subject_case message)
  && returned (subject_full_stop message)
  && returned (body_leading_blank message)
  && returned (body_max_length message).

(** The flag a check contributes to the count, and the violation
    count of a text: the number of the seven checks that flag it. *)
Definition flags (message : string) : list bool :=
  map flagged
      [header_type message; subject_empty message; subject_length message;
       subject_case message; subject_full_stop message;
       body_leading_blank message; body_max_length message].

Definition violations (message : string) : nat :=
  List.length (filter (fun b : bool => b) (flags message)).

(** [s] without its first [n] characters. *)
Fixpoint drop (n : nat) (s : string) : string :=
  match n, s with
  | S n', String _ rest => drop n' rest
  | _, _ => s
  end.

(** A subject that is not blank, has no uppercase and no titlecase
    character and ends with a lowercase letter. *)
Definition subject_ok (subject : string) : bool :=
  negb (Str.is_empty (Str.strip subject))
  && negb (contains_upper subject)
  && negb (contains_title subject)
  && match Str.last_char subject with
     | Some c => Char.isalpha c && Char.islower c
     | None => false
     end.

(** No body, or a blank second line followed by lines of at most 100
    characters. *)
Definition body_ok (body : list string) : bool :=
  match body with
  | [] => true
  | second :: others =>
      Str.is_empty (Str.strip second)
      && forallb (fun l => String.length l <=? 100) others
  end.

(** A valid message: the first line is an allowed type prefix followed
    by a good subject, the line has at most 100 characters (the length
    the subject-length rule measures), and the body is good. *)
Definition well_formed (message : string) : bool :=
  match Str.splitlines message with
  | [] => false
  | line :: body =>
      existsb (fun p => String.prefix p line
                        && subject_ok (drop (String.length p) line))
              conventional_commit_type
      && (String.length line <=? 100)
      && body_ok body
  end.

End Spec.

(** ** The subject-case check on arbitrary text

    The definitions above hold one code point below 256 per character.
    What [str.islower] answers also depends on characters beyond that
    range, so the subject-case check is written a second time here, on
    texts that are lists of arbitrary code points, with the character
    classes of the Unicode database as parameters. *)

Module Unicode.

Definition text : Type := list N.

Definition colon : N := 58%N.
Definition CR : N := 13%N.
Definition LF : N := 10%N.

(** The code points of an 8-bit string, and a class of 8-bit
    characters as a class of code points. *)
Definition of_string (s : string) : text :=
  map N_of_ascii (list_ascii_of_string s).

Definition latin1 (class : ascii -> bool) (c : N) : bool :=
  (c <? 256)%N && class (ascii_of_N c).

Definition is_empty (s : text) : bool :=
  match s with [] => true | _ :: _ => false end.

Definition push (c : N) (pieces : list text) : list text :=
  match pieces with
  | [] => [[c]]
  | h :: t => (c :: h) :: t
  end.

Fixpoint any (p : N -> bool) (s : text) : bool :=
  match s with
  | [] => false
  | c :: rest => p c || any p rest
  end.

(** [s.split(":")] and [":" in s] *)
Fixpoint split_colon (s : text) : list text :=
  match s with
  | [] => [[]]
  | c :: rest =>
      if (c =? colon)%N then [] :: split_colon rest
      else push c (split_colon rest)
  end.

Fixpoint has_colon (s : text) : bool :=
  match s with
  | [] => false
  | c :: rest => (c =? colon)%N || has_colon rest
  end.

(** The text after the last colon; the whole text when it has no
    colon. *)
Fixpoint after_last_colon (s : text) : text :=
  match s with
  | [] => []
  | c :: rest =>
      if has_colon rest then after_last_colon rest
      else if (c =? colon)%N then rest
      else s
  end.

Section Database.

Variables isspace islinebreak isupper istitle islower : N -> bool.

(** [s.splitlines()].  [after_cr] tells that the previous character was
    a CR that ended a line: a LF that follows it belongs to the same
    boundary. *)
Fixpoint splitlines_from (s : text) (after_cr : bool) : list text :=
  match s with
  | [] => []
  | c :: rest =>
      if after_cr && (c =? LF)%N then splitlines_from rest false
      else if islinebreak c then [] :: splitlines_from rest (c =? CR)%N
      else push c (splitlines_from rest false)
  end.

Definition splitlines (s : text) : list text := splitlines_from s false.

Fixpoint lstrip (s : text) : text :=
  match s with
  | [] => []
  | c :: rest => if isspace c then lstrip rest else s
  end.

Fixpoint rstrip (s : text) : text :=
  match s with
  | [] => []
  | c :: rest =>
      let r := rstrip rest in
      if isspace c && is_empty r then [] else c :: r
  end.

Definition strip (s : text) : text := rstrip (lstrip s).

(** [s.islower()]: the scan stops with [False] at the first uppercase
    or titlecase character and otherwise remembers whether a lowercase
    one was seen. *)
Fixpoint islower_scan (s : text) (cased : bool) : bool :=
  match s with
  | [] => cased
  | c :: rest =>
      if isupper c || istitle c then false
      else islower_scan rest (cased || islower c)
  end.

Definition str_islower (s : text) : bool := islower_scan s false.

Definition subject_case (commit_message : text) : M value :=
  line <- first_item (splitlines commit_message) ;;
  let commit_header := strip line in
  commit_subject <- last_item (split_colon commit_header) ;;
  if negb (str_islower commit_subject) then
    print "Subject must be lower case." ;;;
    ret (VBool true)
  else ret (VBool false).

End Database.

End Unicode.

(** * Properties *)

(** ** Characters *)

Section CharFacts.

Lemma colon_not_space : Char.isspace Char.colon = false.
Proof. reflexivity. Qed.

Lemma colon_not_alpha : Char.isalpha Char.colon = false.
Proof. reflexivity. Qed.

(** Every line boundary is a whitespace character. *)
Lemma linebreak_is_space (c : ascii) :
  Char.islinebreak c = true -> Char.isspace c = true.
Proof.
  destruct c as [[] [] [] [] [] [] [] []]; vm_compute; congruence.
Qed.

Lemma space_not_colon (c : ascii) :
  Char.isspace c = true -> Ascii.eqb c Char.colon = false.
Proof.
  destruct (Ascii.eqb_spec c Char.colon) as [->|]; [|reflexivity].
  rewrite colon_not_space; discriminate.
Qed.

Lemma alpha_not_space (c : ascii) :
  Char.isalpha c = true -> Char.isspace c = false.
Proof.
  destruct c as [[] [] [] [] [] [] [] []]; vm_compute; congruence.
Qed.

End CharFacts.

(** ** Strings *)

Section StrFacts.

Lemma is_empty_true (s : string) : Str.is_empty s = true <-> s = "".
Proof. destruct s; simpl; split; congruence. Qed.

Lemma is_empty_false (s : string) : Str.is_empty s = false <-> s <> "".
Proof. destruct s; simpl; split; congruence. Qed.

Lemma push_not_nil (c : ascii) (l : list string) : Str.push c l <> [].
Proof. destruct l; discriminate. Qed.

(** Only the empty string has no line. *)
Lemma splitlines_nil (s : string) : Str.splitlines s = [] <-> s = "".
Proof.
  split; [|intros ->; reflexivity].
  induction s as [|c rest IH]; [reflexivity|]; simpl.
  destruct (Ascii.eqb c Char.CR && Str.starts_with_char Char.LF rest) eqn:E.
  - intros H. apply IH in H. subst rest.
    cbn [Str.starts_with_char] in E; rewrite andb_false_r in E.
    discriminate.
  - destruct (Char.islinebreak c); [discriminate|].
    intros H; destruct (push_not_nil _ _ H).
Qed.

Lemma splitlines_first (s : string) :
  s <> "" -> exists line rest, Str.splitlines s = line :: rest.
Proof.
  intros H. destruct (Str.splitlines s) as [|l r] eqn:E.
  - apply splitlines_nil in E; contradiction.
  - eauto.
Qed.

(** The first line is a prefix of the text, and what follows it is
    empty or begins with a line boundary. *)
Lemma splitlines_head (s line : string) (rest : list string) :
  Str.splitlines s = line :: rest ->
  exists tail, s = line ++ tail /\
    (tail = "" \/ exists b t, tail = String b t /\ Char.islinebreak b = true).
Proof.
  revert line rest; induction s as [|c s' IH]; intros line rest; simpl;
    [discriminate|].
  destruct (Ascii.eqb c Char.CR && Str.starts_with_char Char.LF s') eqn:E.
  - apply andb_true_iff in E as [Ec El].
    apply Ascii.eqb_eq in Ec; subst c.
    destruct s' as [|d s'']; [discriminate|].
    cbn [Str.starts_with_char] in El.
    apply Ascii.eqb_eq in El; subst d.
    change (Str.splitlines (String Char.LF s''))
      with ("" :: Str.splitlines s'').
    intros H; injection H as <- _.
    exists (String Char.CR (String Char.LF s'')); split; [reflexivity|].
    right; eauto.
  - destruct (Char.islinebreak c) eqn:Eb.
    + intros H; injection H as <- _.
      exists (String c s'); split; [reflexivity|]. right; eauto.
    + destruct (Str.splitlines s') as [|h t] eqn:Es; simpl.
      * apply splitlines_nil in Es; subst s'.
        intros H; injection H as <- _. exists ""; auto.
      * intros H; injection H as <- _.
        destruct (IH h t eq_refl) as (tail & -> & Ht).
        exists tail; split; [reflexivity|exact Ht].
Qed.

(** *** [strip] *)

Lemma lstrip_head (s : string) (c : ascii) (r : string) :
  Str.lstrip s = String c r -> Char.isspace c = false.
Proof.
  induction s as [|d s' IH]; simpl; [discriminate|].
  destruct (Char.isspace d) eqn:E; [exact IH|].
  intros H; injection H as <- _; exact E.
Qed.

Lemma rstrip_empty (s : string) :
  Str.rstrip s = "" <-> Str.any (fun c => negb (Char.isspace c)) s = false.
Proof.
  induction s as [|c s' IH]; simpl; [tauto|].
  destruct (Char.isspace c); simpl.
  - destruct (Str.rstrip s') eqn:E; simpl.
    + split; intros _; [apply IH|]; reflexivity.
    + split; [discriminate|]. intros H; apply IH in H; discriminate.
  - split; discriminate.
Qed.

Lemma rstrip_last (s : string) (c : ascii) :
  Str.last_char (Str.rstrip s) = Some c -> Char.isspace c = false.
Proof.
  induction s as [|d s' IH]; simpl; [discriminate|].
  destruct (Char.isspace d) eqn:E; simpl.
  - destruct (Str.rstrip s') as [|e r] eqn:Er; simpl; [discriminate|].
    exact IH.
  - destruct (Str.rstrip s') as [|e r] eqn:Er; simpl.
    + intros H; injection H as <-; exact E.
    + exact IH.
Qed.

Lemma strip_last (s : string) (c : ascii) :
  Str.last_char (Str.strip s) = Some c -> Char.isspace c = false.
Proof. apply rstrip_last. Qed.

Lemma last_char_none (s : string) : Str.last_char s = None <-> s = "".
Proof.
  split; [|intros ->; reflexivity].
  induction s as [|c s' IH]; [reflexivity|]; simpl.
  destruct s'; [discriminate|]. intros H; apply IH in H; discriminate.
Qed.

Lemma any_lstrip (s : string) :
  Str.any (fun c => negb (Char.isspace c)) (Str.lstrip s)
  = Str.any (fun c => negb (Char.isspace c)) s.
Proof.
  induction s as [|c s' IH]; simpl; [reflexivity|].
  destruct (Char.isspace c) eqn:E; simpl; [exact IH|].
  rewrite E; reflexivity.
Qed.

(** A line is blank exactly when it has no character that is not
    whitespace. *)
Lemma strip_empty (s : string) :
  Str.strip s = "" <-> Str.any (fun c => negb (Char.isspace c)) s = false.
Proof. unfold Str.strip; rewrite rstrip_empty, any_lstrip; tauto. Qed.

End StrFacts.

(** ** Splitting at colons *)

Section ColonFacts.

Lemma split_colon_not_nil (s : string) : Str.split_colon s <> [].
Proof.
  destruct s as [|c r]; simpl; [discriminate|].
  destruct (Ascii.eqb c Char.colon); [discriminate|apply push_not_nil].
Qed.

Lemma split_colon_no_colon (s : string) :
  Str.has_colon s = false -> Str.split_colon s = [s].
Proof.
  induction s as [|c r IH]; simpl; [reflexivity|].
  destruct (Ascii.eqb c Char.colon); simpl; [discriminate|].
  intros H; rewrite (IH H); reflexivity.
Qed.

Lemma split_colon_colon (s : string) :
  Str.has_colon s = true ->
  exists h x t, Str.split_colon s = h :: x :: t.
Proof.
  induction s as [|c r IH]; simpl; [discriminate|].
  destruct (Ascii.eqb c Char.colon); simpl.
  - intros _. destruct (Str.split_colon r) as [|x t] eqn:E.
    + destruct (split_colon_not_nil _ E).
    + eauto.
  - intros H. destruct (IH H) as (h & x & t & ->). simpl; eauto.
Qed.

Lemma after_last_colon_no_colon (s : string) :
  Str.has_colon s = false -> Spec.after_last_colon s = s.
Proof.
  destruct s as [|c r]; simpl; [reflexivity|].
  destruct (Ascii.eqb c Char.colon); simpl; [discriminate|].
  intros ->; reflexivity.
Qed.

(** [s.split(":")[-1]] never raises and is the text after the last
    colon. *)
Lemma split_colon_last (s : string) :
  last_item (Str.split_colon s) = ret (Spec.after_last_colon s).
Proof.
  induction s as [|c r IH]; [reflexivity|].
  cbn [Str.split_colon Spec.after_last_colon].
  destruct (Ascii.eqb c Char.colon) eqn:Ec.
  - destruct (Str.split_colon r) as [|x t] eqn:E;
      [destruct (split_colon_not_nil _ E)|].
    change (last_item ("" :: x :: t)) with (last_item (x :: t)).
    rewrite IH. destruct (Str.has_colon r) eqn:Hc; [reflexivity|].
    rewrite after_last_colon_no_colon; auto.
  - destruct (Str.has_colon r) eqn:Hc.
    + destruct (split_colon_colon _ Hc) as (h & x & t & E).
      rewrite E in *. exact IH.
    + rewrite (split_colon_no_colon _ Hc). reflexivity.
Qed.

Lemma after_last_colon_has_no_colon (s : string) :
  Str.has_colon (Spec.after_last_colon s) = false.
Proof.
  induction s as [|c r IH]; [reflexivity|]; simpl.
  destruct (Str.has_colon r) eqn:Hc; [exact IH|].
  destruct (Ascii.eqb c Char.colon) eqn:Ec; [exact Hc|].
  simpl; rewrite Ec, Hc; reflexivity.
Qed.

(** The text after the last colon ends where the whole text ends. *)
Lemma after_last_colon_last (s : string) :
  Spec.after_last_colon s <> "" ->
  Str.last_char (Spec.after_last_colon s) = Str.last_char s.
Proof.
  induction s as [|c r IH]; [reflexivity|]; simpl.
  destruct (Str.has_colon r) eqn:Hc.
  - intros H. rewrite (IH H). destruct r; [discriminate|reflexivity].
  - destruct (Ascii.eqb c Char.colon) eqn:Ec; [|reflexivity].
    intros H. destruct r; [contradiction|reflexivity].
Qed.

Lemma after_last_colon_empty (s : string) :
  Spec.after_last_colon s = "" ->
  s = "" \/ Str.last_char s = Some Char.colon.
Proof.
  induction s as [|c r IH]; [auto|]; simpl.
  destruct (Str.has_colon r) eqn:Hc.
  - intros H. destruct (IH H) as [->|E]; [discriminate|].
    right. destruct r; [discriminate|exact E].
  - destruct (Ascii.eqb c Char.colon) eqn:Ec; [|discriminate].
    intros ->. apply Ascii.eqb_eq in Ec; subst c. right; reflexivity.
Qed.

Lemma any_after_last_colon (p : ascii -> bool) (s : string) :
  Str.any p (Spec.after_last_colon s) = true -> Str.any p s = true.
Proof.
  induction s as [|c r IH]; [auto|]; simpl.
  destruct (Str.has_colon r).
  - intros H; rewrite (IH H); apply orb_true_r.
  - destruct (Ascii.eqb c Char.colon); [intros ->; apply orb_true_r|].
    simpl; auto.
Qed.

(** In a trimmed text, the part after the last colon is blank only
    when it is empty. *)
Lemma stripped_subject_blank (line : string) :
  let subject := Spec.after_last_colon (Str.strip line) in
  Str.is_empty (Str.strip subject) = Str.is_empty subject.
Proof.
  intros subject.
  destruct subject as [|c r] eqn:E; [reflexivity|]; simpl Str.is_empty at 2.
  apply is_empty_false. intros Hblank.
  assert (Hne : Spec.after_last_colon (Str.strip line) <> "")
    by (unfold subject in E; rewrite E; discriminate).
  pose proof (after_last_colon_last _ Hne) as Hlast.
  fold subject in Hlast; rewrite E in Hlast.
  destruct (Str.last_char (String c r)) as [d|] eqn:Ed;
    [|apply last_char_none in Ed; discriminate].
  symmetry in Hlast; apply strip_last in Hlast.
  apply strip_empty in Hblank.
  clear -Hblank Ed Hlast.
  revert c Hblank Ed; induction r as [|e r IH]; intros c Hblank Ed.
  - simpl in *. injection Ed as ->. rewrite Hlast in Hblank; discriminate.
  - simpl in Hblank. apply orb_false_iff in Hblank as [_ Hb].
    apply (IH e); [exact Hb|exact Ed].
Qed.

(** Trimming removes no colon, and it commutes with taking the text
    after the last colon up to blankness. *)
Lemma has_colon_lstrip (s : string) :
  Str.has_colon (Str.lstrip s) = Str.has_colon s.
Proof.
  induction s as [|c r IH]; [reflexivity|]. cbn [Str.lstrip].
  destruct (Char.isspace c) eqn:E; [|reflexivity].
  cbn [Str.has_colon]. rewrite (space_not_colon _ E). exact IH.
Qed.

Lemma has_colon_rstrip (s : string) :
  Str.has_colon (Str.rstrip s) = Str.has_colon s.
Proof.
  induction s as [|c r IH]; [reflexivity|].
  cbn [Str.rstrip Str.has_colon].
  destruct (Char.isspace c) eqn:E; cbn [andb].
  - rewrite (space_not_colon _ E). cbn [orb].
    destruct (Str.rstrip r) eqn:R; cbn [Str.is_empty].
    + rewrite <- IH. reflexivity.
    + cbn [Str.has_colon]. rewrite (space_not_colon _ E). exact IH.
  - cbn [Str.has_colon]. rewrite IH. reflexivity.
Qed.

Lemma has_colon_strip (s : string) :
  Str.has_colon (Str.strip s) = Str.has_colon s.
Proof. unfold Str.strip. rewrite has_colon_rstrip. apply has_colon_lstrip. Qed.

Lemma after_last_colon_lstrip (s : string) :
  Str.has_colon s = true ->
  Spec.after_last_colon (Str.lstrip s) = Spec.after_last_colon s.
Proof.
  induction s as [|c r IH]; [reflexivity|]. cbn [Str.lstrip].
  destruct (Char.isspace c) eqn:E; [|reflexivity].
  cbn [Str.has_colon Spec.after_last_colon].
  rewrite (space_not_colon _ E). cbn [orb]. intros H. rewrite H. auto.
Qed.

Lemma after_last_colon_rstrip (s : string) :
  Str.has_colon s = true ->
  Spec.after_last_colon (Str.rstrip s) = Str.rstrip (Spec.after_last_colon s).
Proof.
  induction s as [|c r IH]; [discriminate|].
  cbn [Str.has_colon Str.rstrip Spec.after_last_colon]. intros H.
  assert (R : Char.isspace c && Str.is_empty (Str.rstrip r) = false).
  { destruct (Char.isspace c) eqn:E; [|reflexivity]. cbn [andb].
    rewrite (space_not_colon _ E) in H. cbn [orb] in H.
    rewrite <- has_colon_rstrip in H.
    destruct (Str.rstrip r); [discriminate|reflexivity]. }
  rewrite R. cbn [Spec.after_last_colon]. rewrite has_colon_rstrip.
  destruct (Str.has_colon r) eqn:Hr; [auto|].
  rewrite orb_false_r in H. rewrite H. reflexivity.
Qed.

Lemma is_empty_strip_rstrip (s : string) :
  Str.is_empty (Str.strip s) = Str.is_empty (Str.rstrip s).
Proof.
  destruct (Str.strip s) eqn:A, (Str.rstrip s) eqn:B; try reflexivity.
  - apply strip_empty in A. apply rstrip_empty in A. congruence.
  - apply rstrip_empty in B. apply strip_empty in B. congruence.
Qed.

(** Whether the part after the last colon is blank does not depend on
    trimming the line first. *)
Lemma subject_blank_raw (line : string) :
  Str.has_colon line = true ->
  Str.is_empty (Str.strip (Spec.after_last_colon line))
  = Str.is_empty (Str.strip (Spec.after_last_colon (Str.strip line))).
Proof.
  intros H. rewrite stripped_subject_blank. unfold Str.strip at 2.
  rewrite after_last_colon_rstrip by (rewrite has_colon_lstrip; exact H).
  rewrite after_last_colon_lstrip by exact H.
  apply is_empty_strip_rstrip.
Qed.

End ColonFacts.

(** ** The subject checks *)

Section SubjectChecks.

Variables (message line : string) (rest : list string).
Hypothesis first_line : Str.splitlines message = line :: rest.

Lemma header_first_line : Spec.header message = Str.strip line.
Proof. unfold Spec.header; rewrite first_line; reflexivity. Qed.

Lemma subject_empty_eq :
  subject_empty message =
  if negb (Str.has_colon (Str.strip line))
     || Str.is_empty (Spec.after_last_colon (Str.strip line))
  then Spec.violation "Subject may not be empty."
  else Spec.no_violation.
Proof.
  unfold subject_empty. rewrite first_line. cbn [first_item].
  unfold ret at 1; cbn [bind]. rewrite split_colon_last.
  unfold ret at 1; cbn [bind truthy]. rewrite negb_involutive.
  destruct (negb _ || _); reflexivity.
Qed.

Lemma subject_length_eq :
  subject_length message =
  let n := String.length (Str.strip line) in
  if 100 <? n
  then Spec.violation
         ("Subject must not be longer than 100 chars, current length is  "
          ++ Str.of_nat n)
  else Spec.no_violation.
Proof.
  unfold subject_length. rewrite first_line. cbn [first_item].
  unfold ret at 1; cbn [bind].
  destruct (100 <? _); reflexivity.
Qed.

Lemma subject_case_eq :
  subject_case message =
  if Str.islower (Spec.after_last_colon (Str.strip line))
  then Spec.no_violation
  else Spec.violation "Subject must be lower case.".
Proof.
  unfold subject_case. rewrite first_line. cbn [first_item].
  unfold ret at 1; cbn [bind]. rewrite split_colon_last.
  unfold ret at 1; cbn [bind].
  destruct (Str.islower _); reflexivity.
Qed.

Lemma subject_full_stop_eq :
  subject_full_stop message =
  match Str.last_char (Str.strip line) with
  | None => raise IndexError
  | Some c =>
      if Char.isalpha c then Spec.no_violation
      else Spec.violation "Subject must end with alphabetic character."
  end.
Proof.
  unfold subject_full_stop. rewrite first_line. cbn [first_item].
  unfold ret at 1; cbn [bind]. unfold last_char_item.
  destruct (Str.last_char _) as [c|]; [|reflexivity].
  unfold ret at 1; cbn [bind].
  destruct (Char.isalpha c); reflexivity.
Qed.

End SubjectChecks.

Lemma any_orb (p q : ascii -> bool) (s : string) :
  Str.any (fun c => p c || q c) s = Str.any p s || Str.any q s.
Proof.
  induction s as [|c r IH]; [reflexivity|]. cbn [Str.any]. rewrite IH.
  destruct (p c), (q c), (Str.any p r); reflexivity.
Qed.

(** [str.islower]: no uppercase and no titlecase character, and at
    least one lowercase one. *)
Lemma islower_scan_spec (s : string) (cased : bool) :
  Str.islower_scan s cased =
  negb (Spec.contains_upper s || Spec.contains_title s)
  && (cased || Spec.contains_lower s).
Proof.
  unfold Spec.contains_upper, Spec.contains_title, Spec.contains_lower.
  rewrite <- any_orb.
  revert cased; induction s as [|c r IH]; intros cased;
    cbn [Str.islower_scan Str.any].
  - rewrite orb_false_r; reflexivity.
  - destruct (Char.isupper c || Char.istitle c); cbn [orb negb andb];
      [reflexivity|].
    rewrite IH, orb_assoc; reflexivity.
Qed.

Lemma islower_spec (s : string) :
  Str.islower s
  = negb (Spec.contains_upper s || Spec.contains_title s)
    && Spec.contains_lower s.
Proof. unfold Str.islower; rewrite islower_scan_spec; reflexivity. Qed.

(** C6.  For every message that has a first line (in particular a
    non-empty one), the subject-empty check flags a violation exactly
    when the trimmed header contains no colon or the text of the header
    after its last colon is empty after trimming; the diagnostic is
    printed in that case and nothing otherwise.  It makes no difference
    whether the text after the last colon is taken from the trimmed
    header or from the first line as it stands. *)
Theorem subject_empty_iff (message line : string) (rest : list string) :
  Str.splitlines message = line :: rest ->
  let header := Spec.header message in
  let subject := Spec.after_last_colon header in
  (flagged (subject_empty message) = true <->
     Str.has_colon header = false \/ Str.strip subject = "")
  /\ (flagged (subject_empty message) = true <->
     Str.has_colon header = false
     \/ Str.strip (Spec.after_last_colon line) = "")
  /\ subject_empty message =
       (if negb (Str.has_colon header) || Str.is_empty (Str.strip subject)
        then Spec.violation "Subject may not be empty."
        else Spec.no_violation).
Proof.
  intros H header subject.
  assert (Hh : header = Str.strip line)
    by (apply header_first_line with rest; exact H).
  assert (E : Str.is_empty (Str.strip subject) = Str.is_empty subject).
  { unfold subject; rewrite Hh; apply stripped_subject_blank. }
  assert (R : Str.has_colon header = true ->
              Str.is_empty (Str.strip (Spec.after_last_colon line))
              = Str.is_empty subject).
  { intros Hc. rewrite Hh, has_colon_strip in Hc.
    rewrite (subject_blank_raw _ Hc). fold header in Hh.
    rewrite <- Hh. exact E. }
  rewrite (subject_empty_eq _ _ _ H), E. fold header in Hh. rewrite <- Hh.
  fold subject. split; [|split; [|reflexivity]].
  - rewrite <- is_empty_true, E.
    destruct (Str.has_colon header), (Str.is_empty subject); cbn;
      intuition congruence.
  - rewrite <- is_empty_true.
    destruct (Str.has_colon header) eqn:Hc.
    + rewrite (R eq_refl).
      destruct (Str.is_empty subject); cbn; intuition congruence.
    + cbn; intuition congruence.
Qed.

Lemma subject_empty_iff_witness :
  flagged (subject_empty "fix:  ") = true
  /\ flagged (subject_empty "fix: some message") = false.
Proof.
  split.
  - apply (subject_empty_iff "fix:  " "fix:  " [] eq_refl).
    right; reflexivity.
  - destruct (flagged (subject_empty "fix: some message")) eqn:E;
      [|reflexivity].
    apply (subject_empty_iff "fix: some message" "fix: some message" []
             eq_refl) in E.
    destruct E as [E|E]; vm_compute in E; discriminate.
Defined.

(** C5, as stated, fails: the subject [" 123"] of the header
    ["fix: 123"] contains no uppercase letter, and the subject-case
    check flags it all the same. *)
Lemma subject_case_flags_uncased :
  Spec.header "fix: 123" = "fix: 123"
  /\ Spec.after_last_colon (Spec.header "fix: 123") = " 123"
  /\ Spec.contains_upper " 123" = false
  /\ subject_case "fix: 123" = Spec.violation "Subject must be lower case.".
Proof. repeat split; reflexivity. Qed.

(** *** The subject-case check on arbitrary text *)

Section AnyText.

Variables isspace islinebreak isupper istitle islower : N -> bool.

Lemma text_split_colon_not_nil (s : Unicode.text) :
  Unicode.split_colon s <> [].
Proof.
  destruct s as [|c r]; cbn [Unicode.split_colon]; [discriminate|].
  destruct (c =? Unicode.colon)%N; [discriminate|].
  destruct (Unicode.split_colon r); discriminate.
Qed.

Lemma text_split_colon_no_colon (s : Unicode.text) :
  Unicode.has_colon s = false -> Unicode.split_colon s = [s].
Proof.
  induction s as [|c r IH]; [reflexivity|].
  cbn [Unicode.has_colon Unicode.split_colon].
  destruct (c =? Unicode.colon)%N; cbn [orb]; [discriminate|].
  intros H; rewrite (IH H); reflexivity.
Qed.

Lemma text_split_colon_colon (s : Unicode.text) :
  Unicode.has_colon s = true ->
  exists h x t, Unicode.split_colon s = h :: x :: t.
Proof.
  induction s as [|c r IH]; [discriminate|].
  cbn [Unicode.has_colon Unicode.split_colon].
  destruct (c =? Unicode.colon)%N; cbn [orb].
  - intros _. destruct (Unicode.split_colon r) as [|x t] eqn:E.
    + destruct (text_split_colon_not_nil _ E).
    + eauto.
  - intros H. destruct (IH H) as (h & x & t & ->).
    cbn [Unicode.push]. eauto.
Qed.

Lemma text_after_last_colon_no_colon (s : Unicode.text) :
  Unicode.has_colon s = false -> Unicode.after_last_colon s = s.
Proof.
  destruct s as [|c r]; [reflexivity|].
  cbn [Unicode.has_colon Unicode.after_last_colon].
  destruct (c =? Unicode.colon)%N; cbn [orb]; [discriminate|].
  intros ->; reflexivity.
Qed.

(** [s.split(":")[-1]] never raises and is the text after the last
    colon. *)
Lemma text_split_colon_last (s : Unicode.text) :
  last_item (Unicode.split_colon s) = ret (Unicode.after_last_colon s).
Proof.
  induction s as [|c r IH]; [reflexivity|].
  cbn [Unicode.split_colon Unicode.after_last_colon].
  destruct (c =? Unicode.colon)%N eqn:Ec.
  - destruct (Unicode.split_colon r) as [|x t] eqn:E;
      [destruct (text_split_colon_not_nil _ E)|].
    change (last_item ([] :: x :: t)) with (last_item (x :: t)).
    rewrite IH. destruct (Unicode.has_colon r) eqn:Hc; [reflexivity|].
    rewrite text_after_last_colon_no_colon; auto.
  - destruct (Unicode.has_colon r) eqn:Hc.
    + destruct (text_split_colon_colon _ Hc) as (h & x & t & E).
      rewrite E in *. exact IH.
    + rewrite (text_split_colon_no_colon _ Hc). reflexivity.
Qed.

Lemma text_islower_scan (s : Unicode.text) (cased : bool) :
  Unicode.islower_scan isupper istitle islower s cased =
  negb (Unicode.any isupper s || Unicode.any istitle s)
  && (cased || Unicode.any islower s).
Proof.
  revert cased; induction s as [|c r IH]; intros cased;
    cbn [Unicode.islower_scan Unicode.any].
  - cbn [orb negb andb]. rewrite orb_false_r; reflexivity.
  - rewrite IH.
    destruct (isupper c), (istitle c), (Unicode.any isupper r),
      (Unicode.any istitle r), cased, (islower c); reflexivity.
Qed.

Lemma text_subject_case_eq (message line : Unicode.text)
      (rest : list Unicode.text) :
  Unicode.splitlines islinebreak message = line :: rest ->
  Unicode.subject_case isspace islinebreak isupper istitle islower message
  = if Unicode.str_islower isupper istitle islower
         (Unicode.after_last_colon (Unicode.strip isspace line))
    then Spec.no_violation
    else Spec.violation "Subject must be lower case.".
Proof.
  intros H. unfold Unicode.subject_case. rewrite H. cbn [first_item].
  unfold ret at 1; cbn [bind]. rewrite text_split_colon_last.
  unfold ret at 1; cbn [bind].
  destruct (Unicode.str_islower _ _ _ _); reflexivity.
Qed.

End AnyText.

(** C5, amended.  For every message that has a first line, whatever
    its characters are, the subject-case check flags a violation
    exactly when the text of the trimmed header after its last colon
    contains an uppercase or a titlecase character, or contains no
    lowercase character at all; so an uppercase letter always leads to
    a violation, and so does a subject without cased letters.  The
    statement holds for every assignment of the character classes. *)
Theorem subject_case_any_text
        (isspace islinebreak isupper istitle islower : N -> bool)
        (message line : Unicode.text) (rest : list Unicode.text) :
  Unicode.splitlines islinebreak message = line :: rest ->
  let check :=
    Unicode.subject_case isspace islinebreak isupper istitle islower in
  let subject := Unicode.after_last_colon (Unicode.strip isspace line) in
  flagged (check message)
  = Unicode.any isupper subject || Unicode.any istitle subject
    || negb (Unicode.any islower subject)
  /\ returned (check message) = true
  /\ (Unicode.any isupper subject = true ->
      check message = Spec.violation "Subject must be lower case.").
Proof.
  intros H check subject. unfold check.
  rewrite (text_subject_case_eq isspace islinebreak isupper istitle islower
             _ _ _ H).
  unfold Unicode.str_islower. rewrite text_islower_scan. fold subject.
  destruct (Unicode.any isupper subject), (Unicode.any istitle subject),
    (Unicode.any islower subject); cbn;
    (split; [reflexivity|split; [reflexivity|congruence]]).
Qed.

Lemma subject_case_any_text_witness :
  let check :=
    Unicode.subject_case
      (Unicode.latin1 Char.isspace) (Unicode.latin1 Char.islinebreak)
      (Unicode.latin1 Char.isupper) (N.eqb 453)
      (Unicode.latin1 Char.islower) in
  flagged (check (Unicode.of_string "fix: Some Message")) = true
  /\ flagged (check (Unicode.of_string "fix: some message")) = false
  /\ flagged (check (Unicode.of_string "fix: " ++ [453%N; 97%N])%list) = true.
Proof.
  intros check. unfold check. split; [|split].
  - rewrite (proj1 (subject_case_any_text
                      (Unicode.latin1 Char.isspace)
                      (Unicode.latin1 Char.islinebreak)
                      (Unicode.latin1 Char.isupper) (N.eqb 453)
                      (Unicode.latin1 Char.islower)
                      (Unicode.of_string "fix: Some Message")
                      (Unicode.of_string "fix: Some Message") []
                      eq_refl)).
    reflexivity.
  - rewrite (proj1 (subject_case_any_text
                      (Unicode.latin1 Char.isspace)
                      (Unicode.latin1 Char.islinebreak)
                      (Unicode.latin1 Char.isupper) (N.eqb 453)
                      (Unicode.latin1 Char.islower)
                      (Unicode.of_string "fix: some message")
                      (Unicode.of_string "fix: some message") []
                      eq_refl)).
    reflexivity.
  - rewrite (proj1 (subject_case_any_text
                      (Unicode.latin1 Char.isspace)
                      (Unicode.latin1 Char.islinebreak)
                      (Unicode.latin1 Char.isupper) (N.eqb 453)
                      (Unicode.latin1 Char.islower)
                      (Unicode.of_string "fix: " ++ [453%N; 97%N])%list
                      (Unicode.of_string "fix: " ++ [453%N; 97%N])%list []
                      eq_refl)).
    reflexivity.
Defined.

(** ** The body checks *)

Section BodyChecks.

(** Once the counter is past 2 the leading-blank loop returns
    [None]. *)
Lemma body_leading_blank_loop_past (lines : list string) (count : nat) :
  2 <= count -> body_leading_blank_loop lines count = ret VNone.
Proof.
  revert count; induction lines as [|l r IH]; intros count Hc;
    [reflexivity|].
  cbn [body_leading_blank_loop].
  replace (count + 1 =? 2) with false
    by (symmetry; apply Nat.eqb_neq; lia).
  cbn [andb]. apply IH; lia.
Qed.

Lemma body_leading_blank_eq (message : string) :
  body_leading_blank message =
  match Str.splitlines message with
  | _ :: second :: _ =>
      if Str.is_empty (Str.strip second) then ret VNone
      else Spec.violation "Body should have a leading blank line."
  | _ => ret VNone
  end.
Proof.
  unfold body_leading_blank.
  destruct (Str.splitlines message) as [|l1 [|l2 r]]; try reflexivity.
  cbn [body_leading_blank_loop Nat.add Nat.eqb andb].
  destruct (Str.is_empty (Str.strip l2)); cbn [negb]; [|reflexivity].
  apply body_leading_blank_loop_past; lia.
Qed.

Lemma body_max_length_loop_eq (lines : list string) (count : nat) :
  2 <= count ->
  body_max_length_loop lines count =
  if existsb (fun l => 100 <? String.length l) lines
  then Spec.violation "Body must not have lines longer than 100 chars."
  else ret VNone.
Proof.
  revert count; induction lines as [|l r IH]; intros count Hc;
    [reflexivity|].
  cbn [body_max_length_loop existsb].
  replace (2 <? count + 1) with true
    by (symmetry; apply Nat.ltb_lt; lia).
  cbn [andb]. destruct (100 <? String.length l); [reflexivity|].
  cbn [orb]. apply IH; lia.
Qed.

Lemma body_max_length_eq (message : string) :
  body_max_length message =
  if existsb (fun l => 100 <? String.length l)
             (skipn 2 (Str.splitlines message))
  then Spec.violation "Body must not have lines longer than 100 chars."
  else ret VNone.
Proof.
  unfold body_max_length.
  destruct (Str.splitlines message) as [|l1 [|l2 r]]; try reflexivity.
  cbn [body_max_length_loop Nat.add Nat.ltb Nat.leb andb skipn].
  apply body_max_length_loop_eq; lia.
Qed.

End BodyChecks.

(** C8.  For every message consisting of exactly one line, the
    body-leading-blank check and the body-max-length check each return
    [None] without printing: no violation and no error. *)
Theorem body_checks_one_line (message line : string) :
  Str.splitlines message = [line] ->
  body_leading_blank message = ret VNone
  /\ body_max_length message = ret VNone
  /\ flagged (body_leading_blank message) = false
  /\ flagged (body_max_length message) = false.
Proof.
  intros H. rewrite body_leading_blank_eq, body_max_length_eq, H.
  repeat split.
Qed.

Lemma body_checks_one_line_witness :
  body_leading_blank "fix: correct off-by-one error" = ret VNone
  /\ body_max_length "fix: correct off-by-one error" = ret VNone.
Proof.
  pose proof (body_checks_one_line "fix: correct off-by-one error"
                "fix: correct off-by-one error" eq_refl) as H.
  split; apply H.
Defined.

(** ** Splitting at whitespace *)

Section SplitFacts.

Lemma split_cons (c : ascii) (rest : string) :
  Str.split (String c rest) =
  if Char.isspace c then Str.split rest
  else match rest with
       | EmptyString => [String c ""]
       | String d _ =>
           if Char.isspace d then String c "" :: Str.split rest
           else Str.push c (Str.split rest)
       end.
Proof. reflexivity. Qed.

(** A text without tokens is one without a non-whitespace
    character. *)
Lemma split_nil (s : string) :
  Str.split s = [] <-> Spec.nonblank s = false.
Proof.
  unfold Spec.nonblank.
  induction s as [|c r IH]; [simpl; tauto|].
  rewrite split_cons; cbn [Str.any].
  destruct (Char.isspace c); cbn [negb orb]; [exact IH|].
  split; [|discriminate].
  destruct r as [|d r']; [discriminate|].
  destruct (Char.isspace d); [discriminate|].
  intros H; destruct (push_not_nil _ _ H).
Qed.

Lemma split_lstrip (s : string) : Str.split (Str.lstrip s) = Str.split s.
Proof.
  induction s as [|c r IH]; [reflexivity|].
  rewrite split_cons; cbn [Str.lstrip].
  destruct (Char.isspace c) eqn:E; [exact IH|].
  rewrite split_cons, E; reflexivity.
Qed.

Lemma rstrip_head (s : string) (d : ascii) (r : string) :
  Str.rstrip s = String d r -> exists s', s = String d s'.
Proof.
  destruct s as [|c s']; cbn [Str.rstrip]; [discriminate|].
  destruct (Char.isspace c && Str.is_empty (Str.rstrip s'));
    [discriminate|].
  intros H; injection H as -> _; eauto.
Qed.

Lemma split_rstrip (s : string) : Str.split (Str.rstrip s) = Str.split s.
Proof.
  induction s as [|c s' IH]; [reflexivity|].
  cbn [Str.rstrip]. rewrite (split_cons c s').
  destruct (Char.isspace c) eqn:Ec; cbn [andb].
  - destruct (Str.rstrip s') as [|d r] eqn:E; cbn [Str.is_empty].
    + rewrite <- IH; reflexivity.
    + rewrite split_cons, Ec. exact IH.
  - rewrite split_cons, Ec.
    destruct (Str.rstrip s') as [|d r] eqn:E.
    + change (Str.split "") with (@nil string) in IH.
      destruct s' as [|d s'']; [reflexivity|].
      rewrite <- IH. destruct (Char.isspace d); reflexivity.
    + destruct (rstrip_head _ _ _ E) as (s'' & ->).
      rewrite IH; reflexivity.
Qed.

Lemma split_strip (s : string) : Str.split (Str.strip s) = Str.split s.
Proof. unfold Str.strip; rewrite split_rstrip; apply split_lstrip. Qed.

Lemma push_app (c : ascii) (l m : list string) :
  l <> [] -> Str.push c (l ++ m)%list = (Str.push c l ++ m)%list.
Proof. destruct l; [contradiction|reflexivity]. Qed.

(** Tokens do not run across a whitespace character. *)
Lemma split_app_space (s : string) (b : ascii) (t : string) :
  Char.isspace b = true ->
  Str.split (s ++ String b t) = (Str.split s ++ Str.split t)%list.
Proof.
  intros Hb. induction s as [|c s' IH].
  - cbn [append app]. rewrite split_cons, Hb; reflexivity.
  - cbn [append]. rewrite !split_cons.
    destruct (Char.isspace c); [exact IH|].
    destruct s' as [|d s'']; cbn [append].
    + rewrite Hb, split_cons, Hb. reflexivity.
    + cbn [append] in IH. rewrite IH.
      destruct (Char.isspace d) eqn:Ed; [reflexivity|].
      apply push_app. intros H. apply split_nil in H.
      unfold Spec.nonblank in H; cbn [Str.any] in H.
      rewrite Ed in H; discriminate.
Qed.

(** When the first line is not blank, the first token of the whole
    text is the first token of the header. *)
Lemma first_token_header (message line : string) (rest : list string) :
  Str.splitlines message = line :: rest ->
  Str.strip line <> "" ->
  Spec.first_token (Spec.header message) = Spec.first_token message.
Proof.
  intros H Hne. rewrite (header_first_line _ _ _ H).
  unfold Spec.first_token. rewrite split_strip.
  destruct (splitlines_head _ _ _ H) as (tail & -> & [->|(b & t & -> & Hb)]).
  - replace (line ++ "") with line; [reflexivity|].
    clear; induction line; simpl; congruence.
  - rewrite (split_app_space _ _ _ (linebreak_is_space _ Hb)).
    destruct (Str.split line) as [|tok toks] eqn:E; [|reflexivity].
    apply split_nil in E. apply strip_empty in E. contradiction.
Qed.

Lemma header_type_eq (message : string) :
  header_type message =
  match Spec.first_token message with
  | None => raise IndexError
  | Some token =>
      if Spec.allowed token then Spec.no_violation
      else Spec.violation header_type_diagnostic
  end.
Proof.
  unfold header_type, Spec.first_token.
  destruct (Str.split message) as [|tok toks]; [reflexivity|].
  cbn [first_item hd_error]. unfold ret at 1; cbn [bind].
  unfold Spec.allowed.
  destruct (Str.startswith conventional_commit_type tok); reflexivity.
Qed.

End SplitFacts.

(** ** The header-type check *)

(** C4, as stated, fails: these two messages have the same (blank)
    header, which has no token at all, and the header-type check passes
    the first and flags the second; on the empty message it does
    neither, it raises. *)
Lemma header_type_not_of_header :
  Spec.header (String Char.LF "fix: x") = ""
  /\ Spec.header (String Char.LF "foo: x") = ""
  /\ Spec.first_token "" = None
  /\ header_type (String Char.LF "fix: x") = Spec.no_violation
  /\ header_type (String Char.LF "foo: x")
     = Spec.violation header_type_diagnostic
  /\ header_type "" = raise IndexError.
Proof. repeat split; reflexivity. Qed.

(** No token that begins with ["fix(scope):"] begins with one of the
    eleven literals. *)
Lemma scoped_not_allowed (rest : string) :
  Spec.allowed ("fix(scope):" ++ rest) = false.
Proof. reflexivity. Qed.

(** C4, amended.  For every message that has a first
    whitespace-delimited token, the header-type check flags a violation
    exactly when that token, the first one of the whole message text,
    does not start with one of the eleven literals; when the first line
    is not blank it is the first token of the header; a scoped token
    such as [fix(scope):] is flagged. *)
Theorem header_type_iff (message token : string) (tokens : list string) :
  Str.split message = token :: tokens ->
  header_type message
  = (if Spec.allowed token then Spec.no_violation
     else Spec.violation header_type_diagnostic)
  /\ (flagged (header_type message) = true <-> Spec.allowed token = false)
  /\ (forall line rest,
        Str.splitlines message = line :: rest -> Str.strip line <> "" ->
        Spec.first_token (Spec.header message) = Some token)
  /\ (forall rest, token = "fix(scope):" ++ rest ->
        flagged (header_type message) = true).
Proof.
  intros H.
  assert (E : header_type message
              = (if Spec.allowed token then Spec.no_violation
                 else Spec.violation header_type_diagnostic)).
  { rewrite header_type_eq. unfold Spec.first_token. rewrite H.
    reflexivity. }
  split; [exact E|]. rewrite E. split; [|split].
  - destruct (Spec.allowed token); cbn; split; congruence.
  - intros line rest Hl Hne.
    rewrite (first_token_header _ _ _ Hl Hne).
    unfold Spec.first_token; rewrite H; reflexivity.
  - intros rest ->. rewrite scoped_not_allowed. reflexivity.
Qed.

Lemma header_type_iff_witness :
  flagged (header_type "fix(scope): add a check") = true
  /\ header_type "fix: correct off-by-one error" = Spec.no_violation.
Proof.
  split.
  - apply (header_type_iff "fix(scope): add a check" "fix(scope):"
             ["add"; "a"; "check"] eq_refl) with (rest := "").
    reflexivity.
  - apply (header_type_iff "fix: correct off-by-one error" "fix:"
             ["correct"; "off-by-one"; "error"] eq_refl).
Defined.



(** ** Which inputs make a check raise *)

Section Totality.

Variable message : string.

Lemma header_type_returns :
  returned (header_type message) = Spec.nonblank message.
Proof.
  rewrite header_type_eq. unfold Spec.first_token.
  destruct (Str.split message) as [|tok toks] eqn:E.
  - apply split_nil in E. rewrite E. reflexivity.
  - destruct (Spec.nonblank message) eqn:N.
    + cbn [hd_error]. destruct (Spec.allowed tok); reflexivity.
    + apply split_nil in N. congruence.
Qed.

Lemma subject_empty_returns :
  returned (subject_empty message) = negb (Str.is_empty message).
Proof.
  destruct (Str.splitlines message) as [|l r] eqn:E.
  - unfold subject_empty. rewrite E.
    apply splitlines_nil in E. subst. reflexivity.
  - rewrite (subject_empty_eq _ _ _ E).
    assert (message <> "") by (intros ->; discriminate).
    destruct message; [contradiction|].
    destruct (negb _ || _); reflexivity.
Qed.

Lemma subject_length_returns :
  returned (subject_length message) = negb (Str.is_empty message).
Proof.
  destruct (Str.splitlines message) as [|l r] eqn:E.
  - unfold subject_length. rewrite E.
    apply splitlines_nil in E. subst. reflexivity.
  - rewrite (subject_length_eq _ _ _ E).
    assert (message <> "") by (intros ->; discriminate).
    destruct message; [contradiction|]. cbv zeta.
    destruct (100 <? _); reflexivity.
Qed.

Lemma subject_case_returns :
  returned (subject_case message) = negb (Str.is_empty message).
Proof.
  destruct (Str.splitlines message) as [|l r] eqn:E.
  - unfold subject_case. rewrite E.
    apply splitlines_nil in E. subst. reflexivity.
  - rewrite (subject_case_eq _ _ _ E).
    assert (message <> "") by (intros ->; discriminate).
    destruct message; [contradiction|].
    destruct (Str.islower _); reflexivity.
Qed.

Lemma subject_full_stop_returns :
  returned (subject_full_stop message)
  = match Str.splitlines message with
    | [] => false
    | line :: _ => Spec.nonblank line
    end.
Proof.
  destruct (Str.splitlines message) as [|l r] eqn:E.
  - unfold subject_full_stop. rewrite E. reflexivity.
  - rewrite (subject_full_stop_eq _ _ _ E).
    destruct (Str.last_char (Str.strip l)) as [c|] eqn:L.
    + destruct (Spec.nonblank l) eqn:N.
      * destruct (Char.isalpha c); reflexivity.
      * apply strip_empty in N. rewrite N in L. discriminate.
    + apply last_char_none in L. apply strip_empty in L.
      unfold Spec.nonblank. rewrite L. reflexivity.
Qed.

Lemma body_leading_blank_returns :
  returned (body_leading_blank message) = true.
Proof.
  rewrite body_leading_blank_eq.
  destruct (Str.splitlines message) as [|l1 [|l2 r]]; try reflexivity.
  destruct (Str.is_empty _); reflexivity.
Qed.

Lemma body_max_length_returns :
  returned (body_max_length message) = true.
Proof.
  rewrite body_max_length_eq. destruct (existsb _ _); reflexivity.
Qed.

(** A non-blank first line makes the whole text non-blank. *)
Lemma nonblank_first_line (line : string) (rest : list string) :
  Str.splitlines message = line :: rest ->
  Spec.nonblank line = true -> Spec.nonblank message = true.
Proof.
  intros H N. destruct (splitlines_head _ _ _ H) as (tail & -> & _).
  clear H. unfold Spec.nonblank in *.
  induction line as [|c l IH]; [discriminate|].
  cbn [append Str.any] in *.
  destruct (negb (Char.isspace c)); [reflexivity|]. apply IH, N.
Qed.

(** When a check does not return, it has raised [IndexError] without
    printing. *)
Lemma check_returns_or_index_error (check : string -> M value) :
  In check [header_type; subject_empty; subject_length; subject_case;
            subject_full_stop; body_leading_blank; body_max_length] ->
  returned (check message) = true \/ check message = raise IndexError.
Proof.
  intros H.
  repeat (destruct H as [<-|H]); [| | | | | | |destruct H].
  - rewrite header_type_eq. destruct (Spec.first_token message) as [t|];
      [left; destruct (Spec.allowed t); reflexivity|right; reflexivity].
  - destruct (Str.splitlines message) as [|l r] eqn:E.
    + right. unfold subject_empty. rewrite E. reflexivity.
    + left. rewrite (subject_empty_eq _ _ _ E).
      destruct (negb _ || _); reflexivity.
  - destruct (Str.splitlines message) as [|l r] eqn:E.
    + right. unfold subject_length. rewrite E. reflexivity.
    + left. rewrite (subject_length_eq _ _ _ E). cbv zeta.
      destruct (100 <? _); reflexivity.
  - destruct (Str.splitlines message) as [|l r] eqn:E.
    + right. unfold subject_case. rewrite E. reflexivity.
    + left. rewrite (subject_case_eq _ _ _ E).
      destruct (Str.islower _); reflexivity.
  - destruct (Str.splitlines message) as [|l r] eqn:E.
    + right. unfold subject_full_stop. rewrite E. reflexivity.
    + rewrite (subject_full_stop_eq _ _ _ E).
      destruct (Str.last_char _) as [c|]; [left|right; reflexivity].
      destruct (Char.isalpha c); reflexivity.
  - left. apply body_leading_blank_returns.
  - left. apply body_max_length_returns.
Qed.

End Totality.

(** C2, as stated, fails: on the empty string the header-type check
    and the four subject checks raise [IndexError], and on a string
    made of one space the header-type and the subject-full-stop checks
    do. *)
Lemma checks_raise_on_blank :
  header_type "" = raise IndexError
  /\ subject_empty "" = raise IndexError
  /\ subject_length "" = raise IndexError
  /\ subject_case "" = raise IndexError
  /\ subject_full_stop "" = raise IndexError
  /\ header_type " " = raise IndexError
  /\ subject_full_stop " " = raise IndexError
  /\ Spec.all_checks_return "" = false
  /\ Spec.all_checks_return " " = false.
Proof. repeat split; reflexivity. Qed.

(** C2, amended.  The seven checks all return, without raising, on
    exactly the strings whose first line contains a character that is
    not whitespace; this includes a single word without colon and a
    header whose subject after the last colon is empty.  The two body
    checks return on every string; subject-empty, subject-length and
    subject-case return on every string but the empty one; header-type
    returns when the string has a non-whitespace character and
    subject-full-stop when its first line has one.  A check that does
    not return has raised [IndexError]. *)
Theorem checks_return (message : string) :
  Spec.all_checks_return message
  = match Str.splitlines message with
    | [] => false
    | line :: _ => Spec.nonblank line
    end
  /\ returned (body_leading_blank message) = true
  /\ returned (body_max_length message) = true
  /\ returned (subject_empty message) = negb (Str.is_empty message)
  /\ returned (subject_length message) = negb (Str.is_empty message)
  /\ returned (subject_case message) = negb (Str.is_empty message)
  /\ returned (header_type message) = Spec.nonblank message
  /\ returned (subject_full_stop message)
     = match Str.splitlines message with
       | [] => false
       | line :: _ => Spec.nonblank line
       end
  /\ Forall (fun check : string -> M value =>
               returned (check message) = true
               \/ check message = raise IndexError)
            [header_type; subject_empty; subject_length; subject_case;
             subject_full_stop; body_leading_blank; body_max_length]
  /\ Spec.all_checks_return "word" = true
  /\ Spec.all_checks_return "fix:" = true.
Proof.
  assert (F : Forall (fun check : string -> M value =>
                        returned (check message) = true
                        \/ check message = raise IndexError)
                     [header_type; subject_empty; subject_length;
                      subject_case; subject_full_stop; body_leading_blank;
                      body_max_length]).
  { apply Forall_forall. intros check Hin.
    apply check_returns_or_index_error, Hin. }
  unfold Spec.all_checks_return.
  rewrite header_type_returns, subject_empty_returns, subject_length_returns,
    subject_case_returns, subject_full_stop_returns,
    body_leading_blank_returns, body_max_length_returns.
  repeat split; try exact F.
  destruct (Str.splitlines message) as [|l r] eqn:E.
  - rewrite !andb_true_r. apply andb_false_r.
  - rewrite !andb_true_r.
    assert (Hne : Str.is_empty message = false)
      by (destruct message; [discriminate|reflexivity]).
    rewrite Hne. cbn [negb]. rewrite !andb_true_r.
    destruct (Spec.nonblank l) eqn:N; [|apply andb_false_r].
    rewrite (nonblank_first_line _ _ _ E N). reflexivity.
Qed.

(** ** Counting and reporting *)

(** The count that [main] accumulates over seven flags. *)
Lemma bump_count (flags : list value) (n : nat) :
  fold_left (fun count flag => bump flag count) flags n
  = n + List.length (filter truthy flags).
Proof.
  revert n; induction flags as [|f fs IH]; intros n; cbn [fold_left filter].
  - cbn; lia.
  - rewrite IH. unfold bump. destruct (truthy f); cbn [List.length]; lia.
Qed.

(** The last statements of [main] taken alone: whatever the seven
    flags are, the count accumulated from them is the number of true
    ones; reporting it prints the success banner and exits with status
    0 exactly when it is 0, and prints the count and exits with status
    1 when it is greater than 0. *)
Theorem report_pass_iff (f1 f2 f3 f4 f5 f6 f7 : value) :
  let error_count :=
    bump f7 (bump f6 (bump f5 (bump f4 (bump f3 (bump f2 (bump f1 0))))))
  in
  error_count = List.length (filter truthy [f1; f2; f3; f4; f5; f6; f7])
  /\ (report error_count
      = (["=============================="; "All commit messages are valid."],
         Exit 0)
      <-> error_count = 0)
  /\ (report error_count
      = (["=========================";
          "The commit message has " ++ Str.of_nat error_count ++ " errors."],
         Exit 1)
      <-> 0 < error_count)
  /\ exit_status (report error_count) = (if error_count =? 0 then 0 else 1).
Proof.
  intros error_count.
  split.
  - exact (bump_count [f1; f2; f3; f4; f5; f6; f7] 0).
  - generalize error_count; clear; intros n.
    unfold report. destruct n as [|n]; cbn [Nat.ltb Nat.leb Nat.eqb].
    + repeat split; try reflexivity; try discriminate; lia.
    + repeat split; try reflexivity; try discriminate; lia.
Qed.

(** ** Valid messages pass every check *)

Section Affixes.

Lemma append_empty (s : string) : s ++ "" = s.
Proof. induction s; simpl; congruence. Qed.

Lemma prefix_nil (s : string) : String.prefix "" s = true.
Proof. destruct s; reflexivity. Qed.

Lemma prefix_cons (a b : ascii) (p s : string) :
  String.prefix (String a p) (String b s)
  = Ascii.eqb a b && String.prefix p s.
Proof.
  cbn [String.prefix].
  destruct (ascii_dec a b) as [->|N].
  - rewrite Ascii.eqb_refl. reflexivity.
  - apply Ascii.eqb_neq in N. rewrite N. reflexivity.
Qed.

Lemma prefix_drop (p s : string) :
  String.prefix p s = true -> s = p ++ Spec.drop (String.length p) s.
Proof.
  revert s; induction p as [|a p IH]; intros s H.
  - destruct s; reflexivity.
  - destruct s as [|b s]; [discriminate|].
    rewrite prefix_cons in H. apply andb_true_iff in H as [E H].
    apply Ascii.eqb_eq in E. subst b. cbn [String.length Spec.drop append].
    f_equal. apply IH, H.
Qed.

Lemma prefix_app (p s : string) : String.prefix p (p ++ s) = true.
Proof.
  induction p as [|a p IH]; [apply prefix_nil|].
  cbn [append]. rewrite prefix_cons, Ascii.eqb_refl. exact IH.
Qed.

Lemma any_app (q : ascii -> bool) (s t : string) :
  Str.any q (s ++ t) = Str.any q s || Str.any q t.
Proof.
  induction s as [|c s IH]; [reflexivity|].
  cbn [append Str.any]. rewrite IH, orb_assoc. reflexivity.
Qed.

Lemma has_colon_app (s t : string) :
  Str.has_colon (s ++ t) = Str.has_colon s || Str.has_colon t.
Proof.
  induction s as [|c s IH]; [reflexivity|].
  cbn [append Str.has_colon]. rewrite IH, orb_assoc. reflexivity.
Qed.

Lemma last_char_app (s t : string) :
  t <> "" -> Str.last_char (s ++ t) = Str.last_char t.
Proof.
  intros Ht. induction s as [|c s IH]; [reflexivity|].
  cbn [append Str.last_char]. rewrite <- IH.
  destruct (s ++ t) eqn:E; [|reflexivity].
  destruct s; [contradiction|discriminate].
Qed.

Lemma last_char_any_true (q : ascii -> bool) (s : string) (c : ascii) :
  Str.last_char s = Some c -> q c = true -> Str.any q s = true.
Proof.
  induction s as [|d s IH]; [discriminate|]. cbn [Str.last_char Str.any].
  intros L Q. destruct s.
  - injection L as <-. rewrite Q. reflexivity.
  - rewrite (IH L Q). apply orb_true_r.
Qed.

(** A text that neither begins nor ends with whitespace is left as it
    is by [strip]. *)
Lemma rstrip_fixed (s : string) (c : ascii) :
  Str.last_char s = Some c -> Char.isspace c = false -> Str.rstrip s = s.
Proof.
  induction s as [|d s IH]; [discriminate|]. cbn [Str.last_char Str.rstrip].
  intros L Hc. destruct s as [|e s].
  - injection L as <-. cbn. rewrite Hc. reflexivity.
  - rewrite (IH L Hc). cbn [Str.is_empty]. rewrite andb_false_r.
    reflexivity.
Qed.

Lemma strip_fixed (a c : ascii) (s : string) :
  Char.isspace a = false ->
  Str.last_char (String a s) = Some c -> Char.isspace c = false ->
  Str.strip (String a s) = String a s.
Proof.
  intros Ha L Hc. unfold Str.strip. cbn [Str.lstrip]. rewrite Ha.
  apply rstrip_fixed with c; assumption.
Qed.

(** A text that begins with a prefix free of whitespace has a first
    token that begins with this prefix. *)
Lemma split_prefix_token (p s : string) :
  p <> "" -> Str.any Char.isspace p = false -> String.prefix p s = true ->
  exists token tokens,
    Str.split s = token :: tokens /\ String.prefix p token = true.
Proof.
  revert s; induction p as [|a p IH]; intros s Hne Hp H; [contradiction|].
  destruct s as [|b s]; [discriminate|].
  rewrite prefix_cons in H. apply andb_true_iff in H as [E H].
  apply Ascii.eqb_eq in E. subst b.
  cbn [Str.any] in Hp. apply orb_false_iff in Hp as [Ha Hp].
  rewrite split_cons, Ha.
  destruct p as [|a' p].
  - assert (P : forall t, String.prefix (String a "") (String a t) = true)
      by (intros t; rewrite prefix_cons, Ascii.eqb_refl; apply prefix_nil).
    destruct s as [|d s]; [|destruct (Char.isspace d)].
    + do 2 eexists; split; [reflexivity|apply P].
    + do 2 eexists; split; [reflexivity|apply P].
    + destruct (Str.split (String d s)) as [|h t]; cbn [Str.push];
        do 2 eexists; (split; [reflexivity|apply P]).
  - destruct (IH s ltac:(discriminate) Hp H) as (tok & toks & E & Ht).
    destruct s as [|d s]; [discriminate|].
    assert (Hd : Char.isspace d = false).
    { rewrite prefix_cons in H. apply andb_true_iff in H as [Ed _].
      apply Ascii.eqb_eq in Ed. subst d.
      cbn [Str.any] in Hp. apply orb_false_iff in Hp as [Hp _]. exact Hp. }
    rewrite Hd, E. cbn [Str.push].
    do 2 eexists; split; [reflexivity|].
    rewrite prefix_cons, Ascii.eqb_refl. exact Ht.
Qed.

(** What the proofs use of the eleven type prefixes. *)
Lemma conventional_commit_type_shape (p : string) :
  In p conventional_commit_type ->
  p <> "" /\ Str.any Char.isspace p = false
  /\ Str.has_colon p = true /\ Spec.contains_upper p = false
  /\ Spec.contains_title p = false.
Proof.
  intros H. repeat (destruct H as [<-|H]; [repeat split; discriminate|]).
  destruct H.
Qed.

End Affixes.

Section WellFormed.

Variable message : string.
Hypothesis valid : Spec.well_formed message = true.

Lemma well_formed_parts :
  exists p subject body c,
    Str.splitlines message = (p ++ subject) :: body
    /\ In p conventional_commit_type
    /\ Str.strip (p ++ subject) = p ++ subject
    /\ Spec.contains_upper subject = false
    /\ Spec.contains_title subject = false
    /\ Str.last_char (p ++ subject) = Some c
    /\ Char.isalpha c = true /\ Char.islower c = true
    /\ String.length (p ++ subject) <= 100
    /\ Spec.body_ok body = true.
Proof.
  unfold Spec.well_formed in valid.
  destruct (Str.splitlines message) as [|line body]; [discriminate|].
  apply andb_true_iff in valid as [H Hbody].
  apply andb_true_iff in H as [H Hlen].
  apply existsb_exists in H as (p & Hin & H).
  apply andb_true_iff in H as [Hpre Hsub].
  unfold Spec.subject_ok in Hsub.
  apply andb_true_iff in Hsub as [Hsub Hlast].
  apply andb_true_iff in Hsub as [Hsub Htitle].
  apply andb_true_iff in Hsub as [Hblank Hup].
  apply negb_true_iff in Hblank, Hup, Htitle.
  set (subject := Spec.drop (String.length p) line) in *.
  destruct (Str.last_char subject) as [c|] eqn:Lc; [|discriminate].
  apply andb_true_iff in Hlast as [Halpha Hlow].
  assert (Hs : subject <> "") by (intros E; rewrite E in Lc; discriminate).
  rewrite (prefix_drop _ _ Hpre). fold subject.
  destruct (conventional_commit_type_shape _ Hin) as (Hp & Hsp & _).
  assert (L : Str.last_char (p ++ subject) = Some c)
    by (rewrite last_char_app; assumption).
  exists p, subject, body, c. repeat split; try assumption.
  - destruct p as [|a p']; [contradiction|]. cbn [append] in *.
    cbn [Str.any] in Hsp. apply orb_false_iff in Hsp as [Ha _].
    apply strip_fixed with c; auto using alpha_not_space.
  - apply Nat.leb_le. rewrite (prefix_drop _ _ Hpre) in Hlen. exact Hlen.
Qed.

Lemma well_formed_header_type : header_type message = Spec.no_violation.
Proof.
  destruct well_formed_parts as (p & subject & body & c & Hl & Hin & _).
  destruct (conventional_commit_type_shape _ Hin) as (Hp & Hsp & _).
  destruct (splitlines_head _ _ _ Hl) as (tail & E & _).
  assert (Hpre : String.prefix p message = true).
  { rewrite E. clear. induction p as [|a p IH]; cbn [append].
    - apply prefix_nil.
    - rewrite prefix_cons, Ascii.eqb_refl. exact IH. }
  destruct (split_prefix_token _ _ Hp Hsp Hpre) as (tok & toks & Es & Ht).
  rewrite header_type_eq. unfold Spec.first_token. rewrite Es.
  cbn [hd_error]. unfold Spec.allowed, Str.startswith.
  replace (existsb _ _) with true; [reflexivity|].
  symmetry. apply existsb_exists. eauto.
Qed.

Lemma well_formed_subject :
  subject_empty message = Spec.no_violation
  /\ subject_length message = Spec.no_violation
  /\ subject_case message = Spec.no_violation
  /\ subject_full_stop message = Spec.no_violation.
Proof.
  destruct well_formed_parts
    as (p & subject & body & c & Hl & Hin & Hstrip & Hup & Htitle & L
        & Hc & Hlow & Hlen & _).
  destruct (conventional_commit_type_shape _ Hin)
    as (_ & _ & Hcol & Hpup & Hptitle).
  rewrite (subject_empty_eq _ _ _ Hl), (subject_length_eq _ _ _ Hl),
    (subject_case_eq _ _ _ Hl), (subject_full_stop_eq _ _ _ Hl), Hstrip.
  set (line := p ++ subject) in *.
  assert (Hne : Spec.after_last_colon line <> "").
  { intros E. destruct (after_last_colon_empty _ E) as [E'|E'].
    - rewrite E' in L; discriminate.
    - rewrite L in E'. injection E' as ->.
      rewrite colon_not_alpha in Hc; discriminate. }
  assert (Hnone : forall q : ascii -> bool,
             Str.any q p = false -> Str.any q subject = false ->
             Str.any q (Spec.after_last_colon line) = false).
  { intros q Hqp Hqs.
    destruct (Str.any q (Spec.after_last_colon line)) eqn:U; [|reflexivity].
    apply any_after_last_colon in U. unfold line in U.
    rewrite any_app, Hqp, Hqs in U. discriminate. }
  repeat split.
  - unfold line at 1. rewrite has_colon_app, Hcol. cbn [orb negb].
    destruct (Spec.after_last_colon line); [contradiction|reflexivity].
  - cbv zeta. replace (100 <? String.length line) with false; [reflexivity|].
    symmetry. apply Nat.ltb_ge. exact Hlen.
  - rewrite islower_spec.
    unfold Spec.contains_upper, Spec.contains_title in *.
    rewrite (Hnone _ Hpup Hup), (Hnone _ Hptitle Htitle).
    cbn [orb negb andb].
    replace (Spec.contains_lower _) with true; [reflexivity|].
    symmetry. apply last_char_any_true with c; [|exact Hlow].
    rewrite after_last_colon_last; assumption.
  - rewrite L, Hc. reflexivity.
Qed.

Lemma well_formed_body :
  body_leading_blank message = ret VNone
  /\ body_max_length message = ret VNone.
Proof.
  destruct well_formed_parts
    as (p & subject & body & c & Hl & _ & _ & _ & _ & _ & _ & _ & _ & Hb).
  rewrite body_leading_blank_eq, body_max_length_eq, Hl.
  destruct body as [|second others]; [split; reflexivity|].
  cbn [Spec.body_ok] in Hb. apply andb_true_iff in Hb as [Hs Ho].
  rewrite Hs. split; [reflexivity|]. cbn [skipn].
  replace (existsb _ others) with false; [reflexivity|].
  symmetry. clear -Ho. induction others as [|l r IH]; [reflexivity|].
  cbn [forallb existsb] in *. apply andb_true_iff in Ho as [Hl Hr].
  rewrite (IH Hr), orb_false_r. apply Nat.ltb_ge, Nat.leb_le, Hl.
Qed.

End WellFormed.

(** X14.  Every check passes a valid message, that is one whose first
    line is a type literal followed by a subject that is not blank, has
    no uppercase and no titlecase character and ends with a lowercase
    letter, with at most 100 characters on that line, and whose body is
    absent or a blank line followed by lines of at most 100 characters:
    applied to its text, none of the seven checks prints or flags
    anything, the violation count is 0, and reporting that count prints
    the success banner and exits with status 0. *)
Theorem well_formed_no_violation (message : string) :
  Spec.well_formed message = true ->
  Spec.flags message = [false; false; false; false; false; false; false]
  /\ Spec.violations message = 0
  /\ Spec.all_checks_return message = true
  /\ exit_status (report (Spec.violations message)) = 0.
Proof.
  intros H.
  pose proof (well_formed_header_type message H) as H1.
  destruct (well_formed_subject message H) as (H2 & H3 & H4 & H5).
  destruct (well_formed_body message H) as (H6 & H7).
  unfold Spec.violations, Spec.all_checks_return, Spec.flags.
  cbn [map]. rewrite H1, H2, H3, H4, H5, H6, H7.
  repeat split.
Qed.

Lemma well_formed_no_violation_witness :
  Spec.violations "fix: correct off-by-one error" = 0.
Proof.
  apply (well_formed_no_violation "fix: correct off-by-one error" eq_refl).
Defined.

(** ** The scenarios of the specification, check by check *)

Example scenario_flags :
  Spec.flags "fix: correct off-by-one error"
  = [false; false; false; false; false; false; false]
  /\ Spec.flags "foo: correct off-by-one error"
     = [true; false; false; false; false; false; false]
  /\ Spec.flags "fix: "
     = [false; true; false; true; true; false; false]
  /\ Spec.flags "fix: Some Message"
     = [false; false; false; true; false; false; false]
  /\ Spec.flags "fix: some message."
     = [false; false; false; false; true; false; false]
  /\ Spec.flags ("fix: some message" ++ String Char.LF "body immediately"
                 ++ String Char.LF "no blank line")
     = [false; false; false; false; false; true; false].
Proof. repeat split; reflexivity. Qed.

(** ** The run *)

Section Run.

Variable g : git.

(** [commit_msg] either raises [CalledProcessError] or returns the
    text that [git log] wrote. *)
Lemma commit_msg_cases (path : option string) :
  commit_msg g path = raise CalledProcessError
  \/ exists text, commit_msg g path = ret (VStr text).
Proof.
  unfold commit_msg, run_checked.
  destruct (status_returncode g _ =? 0); cbn; [right|left].
  - eexists; reflexivity.
  - reflexivity.
Qed.

(** With a message in hand, [main] runs the first two checks on it
    and then calls [subject_length] on a function object. *)
Lemma main_after_retrieval (script path text : string)
      (more : list string) :
  commit_msg g (Some path) = ret (VStr text) ->
  main g (script :: path :: more) =
  (f1 <- header_type text ;;
   f2 <- subject_empty text ;;
   raise AttributeError).
Proof.
  intros H. unfold main. cbn [argv_1]. unfold ret at 1. cbn [bind].
  rewrite H. unfold ret at 1. cbn [bind call].
  destruct (header_type text) as [out1 [v1| |]]; cbn [bind]; try reflexivity.
  destruct (subject_empty text) as [out2 [v2| |]]; cbn [bind];
    reflexivity.
Qed.

Lemma bind_raises {A B} (m : M A) (k : A -> M B) :
  (forall a, exists e, snd (k a) = Raise e) ->
  (forall n, snd m <> Exit n) ->
  exists e, snd (bind m k) = Raise e.
Proof.
  intros Hk Hm. destruct m as [out [a|e|n]]; cbn [bind].
  - destruct (Hk a) as (e & He). destruct (k a) as [out' r].
    cbn [snd] in *. eauto.
  - cbn; eauto.
  - destruct (Hm n); reflexivity.
Qed.

Lemma check_never_exits (check : string -> M value) (text : string) :
  In check [header_type; subject_empty] ->
  forall n, snd (check text) <> Exit n.
Proof.
  intros [<-|[<-|[]]] n.
  - rewrite header_type_eq. destruct (Spec.first_token text) as [t|];
      [destruct (Spec.allowed t)|]; discriminate.
  - destruct (Str.splitlines text) as [|l r] eqn:E.
    + unfold subject_empty; rewrite E; discriminate.
    + rewrite (subject_empty_eq _ _ _ E).
      destruct (negb _ || _); discriminate.
Qed.

(** No run of [main] reaches [sys.exit]: every run ends with an
    uncaught exception. *)
Lemma main_raises (argv : list string) :
  exists e, snd (main g argv) = Raise e.
Proof.
  destruct argv as [|script [|path more]];
    try (exists IndexError; reflexivity).
  destruct (commit_msg_cases (Some path)) as [H|(text & H)].
  - exists CalledProcessError. unfold main. cbn [argv_1].
    unfold ret at 1. cbn [bind]. rewrite H. reflexivity.
  - rewrite (main_after_retrieval script path text more H).
    apply bind_raises; [|apply check_never_exits; simpl; auto].
    intros f1. apply bind_raises; [|apply check_never_exits; simpl; auto].
    intros f2. exists AttributeError; reflexivity.
Qed.

End Run.

(** C1: the run on a valid message.  With the latest commit message
    ["fix: correct off-by-one error"], [main] passes the message to
    [header_type] and [subject_empty] only; [subject_length] receives
    the function object [commit_msg] and raises [AttributeError], so
    the run ends with exit status 1 before any count is reported.
    More generally no run of [main] exits with status 0. *)
Theorem main_valid_message_raises :
  (forall path,
      main (repository "fix: correct off-by-one error")
           ["commitlint.py"; path]
      = ([], Raise AttributeError))
  /\ call subject_length (VFunction "commit_msg") = raise AttributeError
  /\ (forall g argv, exit_status (main g argv) = 1).
Proof.
  split; [reflexivity|]. split; [reflexivity|].
  intros g argv. unfold exit_status.
  destruct (main_raises g argv) as (e & ->). reflexivity.
Qed.

(** C7: the run without a path argument.  [commit_msg] has the default
    path ["."], but [main] reads [sys.argv[1]] before calling it: with
    the script name as only argument the run raises [IndexError] and
    retrieves nothing, whereas with ["."] as argument it goes on to the
    checks. *)
Theorem main_without_path_raises :
  (forall g, commit_msg g None = commit_msg g (Some "."))
  /\ (forall g script, main g [script] = ([], Raise IndexError))
  /\ (forall script,
        main (repository "fix: correct off-by-one error") [script; "."]
        = ([], Raise AttributeError)).
Proof. repeat split; reflexivity. Qed.

(** C3: the exit status of a run.  None of the seven checks flags the
    text ["fix: correct off-by-one error"]: its violation count is 0,
    and reporting that count would exit with status 0.  The run on a
    repository with this message does not get that far: it raises
    [AttributeError] at [subject_length(commit_msg)] and ends with exit
    status 1.  No run of [main] ends in [sys.exit], so no run passes,
    whatever the count would be. *)
Theorem main_exit_status_not_from_count :
  Spec.flags "fix: correct off-by-one error"
  = [false; false; false; false; false; false; false]
  /\ Spec.violations "fix: correct off-by-one error" = 0
  /\ exit_status (report (Spec.violations "fix: correct off-by-one error"))
     = 0
  /\ (forall path,
        exit_status (main (repository "fix: correct off-by-one error")
                          ["commitlint.py"; path]) = 1)
  /\ (forall g argv status, snd (main g argv) <> Exit status).
Proof.
  split; [reflexivity|]. split; [reflexivity|]. split; [reflexivity|].
  split; [reflexivity|].
  intros g argv status. destruct (main_raises g argv) as (e & ->).
  discriminate.
Qed.

(** * Further properties of the checks *)

(** ** The body checks on any message *)

(** X1.  [body_leading_blank] looks at the second line only: it flags
    the message, printing its diagnostic once, exactly when there is a
    second line with a character that is not whitespace; otherwise it
    returns [None].  It never raises and never returns [False]. *)
Theorem body_leading_blank_second_line (message : string) :
  body_leading_blank message
  = match nth_error (Str.splitlines message) 1 with
    | Some second =>
        if Spec.nonblank second
        then Spec.violation "Body should have a leading blank line."
        else ret VNone
    | None => ret VNone
    end
  /\ (flagged (body_leading_blank message) = true <->
      exists second,
        nth_error (Str.splitlines message) 1 = Some second
        /\ Spec.nonblank second = true).
Proof.
  assert (B : forall s, Str.is_empty (Str.strip s) = negb (Spec.nonblank s)).
  { intros s. destruct (Spec.nonblank s) eqn:N.
    - apply is_empty_false. intros E. apply strip_empty in E.
      unfold Spec.nonblank in N. congruence.
    - apply is_empty_true, strip_empty, N. }
  rewrite body_leading_blank_eq.
  destruct (Str.splitlines message) as [|l1 [|l2 r]]; cbn [nth_error].
  - split; [reflexivity|]. split; [discriminate|]. intros (s & H & _).
    discriminate.
  - split; [reflexivity|]. split; [discriminate|]. intros (s & H & _).
    discriminate.
  - rewrite B. destruct (Spec.nonblank l2) eqn:N; cbn [negb].
    + split; [reflexivity|]. split; [eauto|reflexivity].
    + split; [reflexivity|]. split; [discriminate|].
      intros (s & H & Hs). injection H as <-. congruence.
Qed.

(** X2.  [body_max_length] flags the message, printing its diagnostic
    once however many lines are too long, exactly when some line from
    the third on has more than 100 characters; the first two lines are
    never measured.  Otherwise it returns [None]. *)
Theorem body_max_length_long_line (message : string) :
  (flagged (body_max_length message) = true <->
     exists line,
       In line (skipn 2 (Str.splitlines message))
       /\ 100 < String.length line)
  /\ body_max_length message
     = (if flagged (body_max_length message)
        then Spec.violation "Body must not have lines longer than 100 chars."
        else ret VNone).
Proof.
  rewrite body_max_length_eq.
  destruct (existsb _ _) eqn:E.
  - split; [|reflexivity]. split; [intros _|reflexivity].
    apply existsb_exists in E as (l & Hin & Hl).
    exists l. split; [exact Hin|]. apply Nat.ltb_lt, Hl.
  - split; [|reflexivity]. split; [discriminate|].
    intros (l & Hin & Hl).
    assert (T : existsb (fun l => 100 <? String.length l)
                        (skipn 2 (Str.splitlines message)) = true).
    { apply existsb_exists. exists l. split; [exact Hin|].
      apply Nat.ltb_lt, Hl. }
    congruence.
Qed.

(** ** The subject checks on any message *)

Section SubjectFacts.

Lemma last_char_colon_has_colon (s : string) :
  Str.last_char s = Some Char.colon -> Str.has_colon s = true.
Proof.
  induction s as [|c r IH]; [discriminate|].
  cbn [Str.last_char Str.has_colon]. destruct r as [|d r].
  - intros H; injection H as ->. reflexivity.
  - intros H. rewrite (IH H). apply orb_true_r.
Qed.

(** The text after the last colon is empty exactly when the text ends
    with a colon. *)
Lemma after_last_colon_empty_iff (s : string) :
  Str.has_colon s = true ->
  Str.is_empty (Spec.after_last_colon s)
  = match Str.last_char s with
    | Some c => Ascii.eqb c Char.colon
    | None => false
    end.
Proof.
  induction s as [|c r IH]; [discriminate|].
  cbn [Str.has_colon Spec.after_last_colon Str.last_char].
  destruct (Str.has_colon r) eqn:Hr.
  - intros _. rewrite (IH eq_refl). destruct r; [discriminate|reflexivity].
  - rewrite orb_false_r. intros Hc. rewrite Hc.
    destruct r as [|d r]; [cbn [Str.is_empty]; congruence|].
    cbn [Str.is_empty].
    destruct (Str.last_char (String d r)) as [e|] eqn:L; [|reflexivity].
    destruct (Ascii.eqb_spec e Char.colon) as [->|]; [|reflexivity].
    apply last_char_colon_has_colon in L. congruence.
Qed.

Lemma length_lstrip (s : string) :
  String.length (Str.lstrip s) <= String.length s.
Proof.
  induction s as [|c r IH]; [reflexivity|]. cbn [Str.lstrip].
  destruct (Char.isspace c); cbn [String.length]; lia.
Qed.

Lemma length_rstrip (s : string) :
  String.length (Str.rstrip s) <= String.length s.
Proof.
  induction s as [|c r IH]; [reflexivity|]. cbn [Str.rstrip].
  destruct (Char.isspace c && Str.is_empty (Str.rstrip r));
    cbn [String.length]; lia.
Qed.

Lemma length_strip (s : string) :
  String.length (Str.strip s) <= String.length s.
Proof.
  unfold Str.strip. pose proof (length_rstrip (Str.lstrip s)).
  pose proof (length_lstrip s). lia.
Qed.

End SubjectFacts.

(** X3.  On a message that has a first line, [subject_empty] flags
    exactly when the trimmed header has no colon or ends with a colon;
    whatever stands between colons, or before the last one, does not
    matter. *)
Theorem subject_empty_trailing_colon
        (message line : string) (rest : list string) :
  Str.splitlines message = line :: rest ->
  flagged (subject_empty message)
  = negb (Str.has_colon (Spec.header message))
    || match Str.last_char (Spec.header message) with
       | Some c => Ascii.eqb c Char.colon
       | None => false
       end.
Proof.
  intros H. rewrite (header_first_line _ _ _ H), (subject_empty_eq _ _ _ H).
  destruct (Str.has_colon (Str.strip line)) eqn:Hc; cbn [negb orb].
  - rewrite <- (after_last_colon_empty_iff _ Hc).
    destruct (Str.is_empty _); reflexivity.
  - reflexivity.
Qed.

Lemma subject_empty_trailing_colon_witness :
  flagged (subject_empty "fix: a: ") = true.
Proof.
  rewrite (subject_empty_trailing_colon "fix: a: " "fix: a: " [] eq_refl).
  reflexivity.
Defined.

(** X4.  An empty subject after a colon is counted three times: when
    the header contains a colon and [subject_empty] flags the message,
    [subject_case] and [subject_full_stop] flag it too. *)
Theorem empty_subject_flagged_thrice
        (message line : string) (rest : list string) :
  Str.splitlines message = line :: rest ->
  Str.has_colon (Spec.header message) = true ->
  flagged (subject_empty message) = true ->
  flagged (subject_case message) = true
  /\ flagged (subject_full_stop message) = true.
Proof.
  intros H. rewrite (header_first_line _ _ _ H).
  rewrite (subject_empty_eq _ _ _ H), (subject_case_eq _ _ _ H),
    (subject_full_stop_eq _ _ _ H).
  intros Hc. rewrite Hc. cbn [negb orb].
  destruct (Str.is_empty (Spec.after_last_colon (Str.strip line))) eqn:E;
    [intros _|discriminate].
  pose proof (after_last_colon_empty_iff _ Hc) as L. rewrite E in L.
  apply is_empty_true in E. rewrite E. split; [reflexivity|].
  destruct (Str.last_char (Str.strip line)) as [c|]; [|discriminate].
  symmetry in L. apply Ascii.eqb_eq in L. subst c. reflexivity.
Qed.

Lemma empty_subject_flagged_thrice_witness :
  flagged (subject_case "fix: ") = true
  /\ flagged (subject_full_stop "fix: ") = true.
Proof.
  apply (empty_subject_flagged_thrice "fix: " "fix: " [] eq_refl);
    reflexivity.
Defined.

(** X5.  On a message that has a first line, [subject_length] flags
    exactly when the trimmed header has more than 100 characters, and
    then prints that length in decimal; surrounding whitespace is not
    counted, so a first line of at most 100 characters is never
    flagged, and later lines are never measured. *)
Theorem subject_length_header
        (message line : string) (rest : list string) :
  Str.splitlines message = line :: rest ->
  let n := String.length (Spec.header message) in
  (flagged (subject_length message) = true <-> 100 < n)
  /\ (100 < n ->
      stdout (subject_length message)
      = ["Subject must not be longer than 100 chars, current length is  "
         ++ Str.of_nat n])
  /\ (String.length line <= 100 ->
      subject_length message = Spec.no_violation).
Proof.
  intros H n. unfold n.
  rewrite (header_first_line _ _ _ H), (subject_length_eq _ _ _ H).
  cbv zeta. pose proof (length_strip line) as Hle.
  destruct (100 <? String.length (Str.strip line)) eqn:E.
  - apply Nat.ltb_lt in E. split; [split; auto|].
    split; [reflexivity|]. intros Hl. lia.
  - apply Nat.ltb_ge in E. split; [split; [discriminate|lia]|].
    split; [lia|reflexivity].
Qed.

Lemma subject_length_header_witness :
  subject_length "   fix: some message   " = Spec.no_violation.
Proof.
  apply (subject_length_header "   fix: some message   "
           "   fix: some message   " [] eq_refl).
  cbn. lia.
Defined.

(** ** Diagnostics *)

(** X6.  Each of the seven checks prints exactly one line when it flags
    the message and nothing otherwise, also when it raises: the number
    of diagnostic lines is the number of violations. *)
Theorem one_diagnostic_per_violation (message : string) :
  Forall (fun check : string -> M value =>
            List.length (stdout (check message))
            = if flagged (check message) then 1 else 0)
         [header_type; subject_empty; subject_length; subject_case;
          subject_full_stop; body_leading_blank; body_max_length].
Proof.
  repeat apply Forall_cons; [| | | | | | |apply Forall_nil].
  - rewrite header_type_eq. destruct (Spec.first_token message) as [t|];
      [destruct (Spec.allowed t)|]; reflexivity.
  - destruct (Str.splitlines message) as [|l r] eqn:E.
    + unfold subject_empty. rewrite E. reflexivity.
    + rewrite (subject_empty_eq _ _ _ E). destruct (negb _ || _); reflexivity.
  - destruct (Str.splitlines message) as [|l r] eqn:E.
    + unfold subject_length. rewrite E. reflexivity.
    + rewrite (subject_length_eq _ _ _ E). cbv zeta.
      destruct (100 <? _); reflexivity.
  - destruct (Str.splitlines message) as [|l r] eqn:E.
    + unfold subject_case. rewrite E. reflexivity.
    + rewrite (subject_case_eq _ _ _ E). destruct (Str.islower _); reflexivity.
  - destruct (Str.splitlines message) as [|l r] eqn:E.
    + unfold subject_full_stop. rewrite E. reflexivity.
    + rewrite (subject_full_stop_eq _ _ _ E).
      destruct (Str.last_char _) as [c|]; [|reflexivity].
      destruct (Char.isalpha c); reflexivity.
  - rewrite body_leading_blank_eq.
    destruct (Str.splitlines message) as [|l1 [|l2 r]]; try reflexivity.
    destruct (Str.is_empty _); reflexivity.
  - rewrite body_max_length_eq. destruct (existsb _ _); reflexivity.
Qed.

(** ** A final newline *)

Section TrailingNewline.

Lemma splitlines_cons (c : ascii) (rest : string) :
  Str.splitlines (String c rest) =
  if Ascii.eqb c Char.CR && Str.starts_with_char Char.LF rest
  then Str.splitlines rest
  else if Char.islinebreak c then "" :: Str.splitlines rest
  else Str.push c (Str.splitlines rest).
Proof. reflexivity. Qed.

(** Appending a line feed adds at most one empty last line. *)
Lemma splitlines_app_newline (s : string) :
  Str.splitlines (s ++ String Char.LF "") = Str.splitlines s
  \/ Str.splitlines (s ++ String Char.LF "")
     = (Str.splitlines s ++ [""])%list.
Proof.
  induction s as [|c r IH]; [right; reflexivity|].
  cbn [append]. rewrite !splitlines_cons.
  assert (K : forall l : list string,
             Str.splitlines (r ++ String Char.LF "") = l ->
             l = Str.splitlines r \/ l = (Str.splitlines r ++ [""])%list)
    by (intros l <-; exact IH).
  destruct (Ascii.eqb c Char.CR) eqn:Ec; cbn [andb].
  - apply Ascii.eqb_eq in Ec. subst c.
    change (Char.islinebreak Char.CR) with true. cbv iota.
    destruct r as [|d r'].
    + left. reflexivity.
    + cbn [append Str.starts_with_char] in *.
      destruct (Ascii.eqb Char.LF d); [exact IH|].
      destruct IH as [->| ->]; [left|right]; reflexivity.
  - destruct (Char.islinebreak c).
    + destruct IH as [->| ->]; [left|right]; reflexivity.
    + destruct IH as [->| ->]; [left; reflexivity|].
      destruct (Str.splitlines r); [left|right]; reflexivity.
Qed.

Variable message : string.
Hypothesis not_empty : message <> "".

Lemma first_line_app_newline :
  exists line rest rest',
    Str.splitlines message = line :: rest
    /\ Str.splitlines (message ++ String Char.LF "") = line :: rest'
    /\ (rest' = rest \/ rest' = (rest ++ [""])%list).
Proof.
  destruct (splitlines_first _ not_empty) as (line & rest & E).
  exists line, rest.
  destruct (splitlines_app_newline message) as [H|H]; rewrite H, E.
  - exists rest. auto.
  - exists (rest ++ [""])%list. auto.
Qed.

End TrailingNewline.

(** X7.  A line feed at the end of a non-empty message, such as the
    one [git log] writes after the text, changes nothing: each of the
    seven checks prints and returns the same with and without it. *)
Theorem final_newline_ignored (message : string) :
  message <> "" ->
  Forall (fun check : string -> M value =>
            check (message ++ String Char.LF "") = check message)
         [header_type; subject_empty; subject_length; subject_case;
          subject_full_stop; body_leading_blank; body_max_length].
Proof.
  intros Hne.
  destruct (first_line_app_newline message Hne) as (l & r & r' & E & E' & Hr).
  repeat apply Forall_cons; [| | | | | | |apply Forall_nil].
  - rewrite !header_type_eq. unfold Spec.first_token.
    rewrite (split_app_space message Char.LF "" eq_refl).
    change (Str.split "") with (@nil string). rewrite app_nil_r.
    reflexivity.
  - rewrite (subject_empty_eq _ _ _ E), (subject_empty_eq _ _ _ E').
    reflexivity.
  - rewrite (subject_length_eq _ _ _ E), (subject_length_eq _ _ _ E').
    reflexivity.
  - rewrite (subject_case_eq _ _ _ E), (subject_case_eq _ _ _ E').
    reflexivity.
  - rewrite (subject_full_stop_eq _ _ _ E), (subject_full_stop_eq _ _ _ E').
    reflexivity.
  - rewrite !body_leading_blank_eq, E, E'.
    destruct Hr as [->| ->]; [reflexivity|].
    destruct r; reflexivity.
  - rewrite !body_max_length_eq, E, E'.
    destruct Hr as [->| ->]; [reflexivity|].
    destruct r as [|l2 r]; [reflexivity|]. cbn [app skipn].
    rewrite existsb_app. cbn [existsb String.length Nat.ltb Nat.leb].
    rewrite !orb_false_r. reflexivity.
Qed.

Lemma final_newline_ignored_witness :
  subject_full_stop ("fix: some message" ++ String Char.LF "")
  = subject_full_stop "fix: some message".
Proof.
  pose proof (final_newline_ignored "fix: some message"
                ltac:(discriminate)) as H.
  do 4 apply Forall_inv_tail in H. apply Forall_inv in H. exact H.
Defined.

(** ** Retrieval and the run *)


Section RunOutcome.

Variables (g : git) (script path : string) (more : list string).

Lemma main_unfolded :
  main g (script :: path :: more)
  = if status_returncode g path =? 0
    then (f1 <- header_type (log_stdout g path) ;;
          f2 <- subject_empty (log_stdout g path) ;;
          raise AttributeError)
    else raise CalledProcessError.
Proof.
  destruct (status_returncode g path =? 0) eqn:E.
  - apply main_after_retrieval. unfold commit_msg, run_checked.
    rewrite E. reflexivity.
  - unfold main, commit_msg, run_checked. cbn [argv_1].
    unfold ret at 1. cbn [bind]. rewrite E. reflexivity.
Qed.

End RunOutcome.


(** X10.  A run prints at most two lines, and each is the diagnostic of
    [header_type] or of [subject_empty]: the diagnostics of the other
    five checks, the count and the two banners are never printed. *)
Theorem main_prints_two_diagnostics (g : git) (argv : list string) :
  List.length (stdout (main g argv)) <= 2
  /\ Forall (fun line => line = header_type_diagnostic
                         \/ line = "Subject may not be empty.")
            (stdout (main g argv)).
Proof.
  destruct argv as [|script [|path more]];
    try (split; [cbn; lia|apply Forall_nil]).
  rewrite main_unfolded.
  destruct (status_returncode g path =? 0);
    [|split; [cbn; lia|apply Forall_nil]].
  set (text := log_stdout g path).
  rewrite header_type_eq.
  destruct (Spec.first_token text) as [tok|];
    [|split; [cbn; lia|apply Forall_nil]].
  destruct (Str.splitlines text) as [|l r] eqn:El.
  - unfold subject_empty. rewrite El.
    destruct (Spec.allowed tok); cbn;
      (split; [lia|repeat (apply Forall_cons; [auto|]); apply Forall_nil]).
  - rewrite (subject_empty_eq _ _ _ El).
    destruct (Spec.allowed tok), (negb _ || _); cbn;
      (split; [lia|repeat (apply Forall_cons; [auto|]); apply Forall_nil]).
Qed.

(** ** The type prefix and the text *)

Section LeadingText.

(** A prefix free of whitespace cannot reach beyond the end of a
    token. *)
Lemma prefix_within_token (p token tail : string) :
  Str.any Char.isspace p = false ->
  (tail = "" \/ exists b t, tail = String b t /\ Char.isspace b = true) ->
  String.prefix p (token ++ tail) = String.prefix p token.
Proof.
  intros Hp Ht. revert p Hp.
  induction token as [|c token IH]; intros p Hp.
  - cbn [append]. destruct p as [|a p]; [rewrite !prefix_nil; reflexivity|].
    destruct Ht as [->|(b & t & -> & Hb)]; [reflexivity|].
    rewrite prefix_cons. cbn [Str.any] in Hp.
    apply orb_false_iff in Hp as [Ha _].
    destruct (Ascii.eqb_spec a b) as [->|]; [congruence|reflexivity].
  - cbn [append]. destruct p as [|a p]; [reflexivity|].
    rewrite !prefix_cons. cbn [Str.any] in Hp.
    apply orb_false_iff in Hp as [_ Hp]. rewrite (IH p Hp). reflexivity.
Qed.

(** The text without its leading whitespace begins with the first
    token, which ends at the end of the text or at a whitespace
    character. *)
Lemma lstrip_first_token (s token : string) (tokens : list string) :
  Str.split s = token :: tokens ->
  exists tail,
    Str.lstrip s = token ++ tail
    /\ (tail = "" \/ exists b t, tail = String b t /\ Char.isspace b = true).
Proof.
  revert token tokens. induction s as [|c r IH]; intros token tokens;
    [discriminate|].
  rewrite split_cons. cbn [Str.lstrip].
  destruct (Char.isspace c) eqn:Ec; [apply IH|].
  destruct r as [|d r'].
  - intros H; injection H as <- _. exists "". auto.
  - destruct (Char.isspace d) eqn:Ed.
    + intros H; injection H as <- _. exists (String d r'). split; eauto.
    + destruct (Str.split (String d r')) as [|h t] eqn:E.
      * apply split_nil in E. unfold Spec.nonblank in E.
        cbn [Str.any] in E. rewrite Ed in E. discriminate.
      * cbn [Str.push]. intros H; injection H as <- _.
        destruct (IH h t eq_refl) as (tail & Hl & Ht).
        cbn [Str.lstrip] in Hl. rewrite Ed in Hl.
        exists tail. cbn [append]. rewrite <- Hl. auto.
Qed.

Lemma startswith_first_token (s token : string) (tokens : list string) :
  Str.split s = token :: tokens ->
  Str.startswith conventional_commit_type (Str.lstrip s)
  = Str.startswith conventional_commit_type token.
Proof.
  intros H. destruct (lstrip_first_token _ _ _ H) as (tail & -> & Ht).
  unfold Str.startswith, conventional_commit_type. cbn [existsb].
  rewrite !(fun p Hp => prefix_within_token p token tail Hp Ht)
    by reflexivity.
  reflexivity.
Qed.

Lemma prefix_has_colon (p s : string) :
  String.prefix p s = true -> Str.has_colon p = true ->
  Str.has_colon s = true.
Proof.
  intros H Hp. rewrite (prefix_drop _ _ H), has_colon_app, Hp. reflexivity.
Qed.

Lemma allowed_has_colon (token : string) :
  Spec.allowed token = true -> Str.has_colon token = true.
Proof.
  unfold Spec.allowed, Str.startswith. intros H.
  apply existsb_exists in H as (p & Hin & Hp).
  destruct (conventional_commit_type_shape _ Hin) as (_ & _ & Hc & _).
  apply prefix_has_colon with p; assumption.
Qed.

End LeadingText.

(** X11.  [header_type] is decided by how the text begins once its
    leading whitespace, blank lines included, is removed: it passes
    when what remains starts with one of the eleven literals, whatever
    follows the literal, flags any other text, and raises [IndexError]
    when nothing remains. *)
Theorem header_type_leading_text (message : string) :
  header_type message
  = if Spec.nonblank message
    then if Str.startswith conventional_commit_type (Str.lstrip message)
         then Spec.no_violation
         else Spec.violation header_type_diagnostic
    else raise IndexError.
Proof.
  rewrite header_type_eq. unfold Spec.first_token.
  destruct (Str.split message) as [|tok toks] eqn:E.
  - apply split_nil in E. rewrite E. reflexivity.
  - rewrite (startswith_first_token _ _ _ E). cbn [hd_error].
    destruct (Spec.nonblank message) eqn:N; [reflexivity|].
    apply split_nil in N. congruence.
Qed.

(** X12.  [subject_empty] adds nothing to the other two header checks:
    a message that [header_type] and [subject_full_stop] both pass is
    passed by [subject_empty] as well. *)
Theorem subject_empty_redundant (message : string) :
  header_type message = Spec.no_violation ->
  subject_full_stop message = Spec.no_violation ->
  subject_empty message = Spec.no_violation.
Proof.
  intros Ht Hf.
  destruct (Str.splitlines message) as [|line rest] eqn:El;
    [unfold subject_full_stop in Hf; rewrite El in Hf; discriminate|].
  rewrite (subject_full_stop_eq _ _ _ El) in Hf.
  destruct (Str.last_char (Str.strip line)) as [c|] eqn:L; [|discriminate].
  destruct (Char.isalpha c) eqn:Hc; [|discriminate].
  assert (Hne : Str.strip line <> "")
    by (intros E; rewrite E in L; discriminate).
  rewrite header_type_eq in Ht.
  destruct (Spec.first_token message) as [tok|] eqn:Etok; [|discriminate].
  destruct (Spec.allowed tok) eqn:Ha; [|discriminate].
  assert (Hcol : Str.has_colon (Str.strip line) = true).
  { pose proof (first_token_header _ _ _ El Hne) as Hh.
    rewrite (header_first_line _ _ _ El), Etok in Hh.
    unfold Spec.first_token in Hh.
    destruct (Str.split (Str.strip line)) as [|t ts] eqn:Es; [discriminate|].
    injection Hh as ->.
    destruct (lstrip_first_token _ _ _ Es) as (tail & Hl & _).
    rewrite <- has_colon_lstrip, Hl, has_colon_app.
    rewrite (allowed_has_colon _ Ha). reflexivity. }
  rewrite (subject_empty_eq _ _ _ El), Hcol.
  rewrite (after_last_colon_empty_iff _ Hcol), L.
  destruct (Ascii.eqb_spec c Char.colon) as [->|]; [|reflexivity].
  rewrite colon_not_alpha in Hc. discriminate.
Qed.

Lemma subject_empty_redundant_witness :
  subject_empty "fix: correct off-by-one error" = Spec.no_violation.
Proof.
  apply (subject_empty_redundant "fix: correct off-by-one error");
    reflexivity.
Defined.

(** ** The header alone *)

Section HeaderAlone.

Lemma not_linebreak_not_cr (c : ascii) :
  Char.islinebreak c = false -> Ascii.eqb c Char.CR = false.
Proof.
  intros H. destruct (Ascii.eqb_spec c Char.CR) as [->|]; [|reflexivity].
  discriminate.
Qed.

(** A non-empty text without line boundary is its own single line. *)
Lemma splitlines_single (s : string) :
  s <> "" -> Str.any Char.islinebreak s = false -> Str.splitlines s = [s].
Proof.
  induction s as [|c r IH]; [contradiction|]. intros _.
  cbn [Str.any]. intros H. apply orb_false_iff in H as [Hc Hr].
  rewrite splitlines_cons, (not_linebreak_not_cr _ Hc), Hc. cbn [andb].
  destruct r as [|d r']; [reflexivity|].
  rewrite IH by (discriminate || exact Hr). reflexivity.
Qed.

(** A line contains no line boundary. *)
Lemma first_line_no_linebreak (s line : string) (rest : list string) :
  Str.splitlines s = line :: rest -> Str.any Char.islinebreak line = false.
Proof.
  revert line rest. induction s as [|c r IH]; intros line rest;
    [discriminate|].
  rewrite splitlines_cons.
  destruct (Ascii.eqb c Char.CR && Str.starts_with_char Char.LF r);
    [apply IH|].
  destruct (Char.islinebreak c) eqn:Hc.
  - intros H; injection H as <- _. reflexivity.
  - destruct (Str.splitlines r) as [|h t] eqn:E; cbn [Str.push];
      intros H; injection H as <- _; cbn [Str.any]; rewrite Hc.
    + reflexivity.
    + exact (IH h t eq_refl).
Qed.

Lemma any_lstrip_false (q : ascii -> bool) (s : string) :
  Str.any q s = false -> Str.any q (Str.lstrip s) = false.
Proof.
  induction s as [|c r IH]; [auto|]. cbn [Str.lstrip].
  destruct (Char.isspace c); [|auto].
  cbn [Str.any]. intros H. apply orb_false_iff in H as [_ H]. auto.
Qed.

Lemma any_rstrip_false (q : ascii -> bool) (s : string) :
  Str.any q s = false -> Str.any q (Str.rstrip s) = false.
Proof.
  induction s as [|c r IH]; [auto|]. cbn [Str.rstrip Str.any].
  intros H. apply orb_false_iff in H as [Hc Hr].
  destruct (Char.isspace c && Str.is_empty (Str.rstrip r)); [reflexivity|].
  cbn [Str.any]. rewrite Hc, (IH Hr). reflexivity.
Qed.

(** Trimming a trimmed text changes nothing. *)
Lemma strip_strip (s : string) : Str.strip (Str.strip s) = Str.strip s.
Proof.
  destruct (Str.strip s) as [|a r] eqn:E; [reflexivity|].
  destruct (Str.last_char (String a r)) as [c|] eqn:L;
    [|apply last_char_none in L; discriminate].
  apply strip_fixed with c; [|exact L|].
  - unfold Str.strip in E.
    destruct (rstrip_head _ _ _ E) as (s' & El).
    apply lstrip_head in El. exact El.
  - rewrite <- E in L. apply strip_last in L. exact L.
Qed.

End HeaderAlone.

(** X13.  The four subject checks see the trimmed header and nothing
    else: when the first line is not blank, each of them prints and
    returns on the message what it does on the trimmed header taken as
    a message of its own, so neither the body nor the whitespace
    around the first line has any influence. *)
Theorem subject_checks_header_alone
        (message line : string) (rest : list string) :
  Str.splitlines message = line :: rest ->
  Str.strip line <> "" ->
  subject_empty message = subject_empty (Spec.header message)
  /\ subject_length message = subject_length (Spec.header message)
  /\ subject_case message = subject_case (Spec.header message)
  /\ subject_full_stop message = subject_full_stop (Spec.header message).
Proof.
  intros H Hne. rewrite (header_first_line _ _ _ H).
  assert (Hh : Str.splitlines (Str.strip line) = [Str.strip line]).
  { apply splitlines_single; [exact Hne|].
    unfold Str.strip. apply any_rstrip_false, any_lstrip_false.
    apply (first_line_no_linebreak _ _ _ H). }
  rewrite (subject_empty_eq _ _ _ H), (subject_empty_eq _ _ _ Hh),
    (subject_length_eq _ _ _ H), (subject_length_eq _ _ _ Hh),
    (subject_case_eq _ _ _ H), (subject_case_eq _ _ _ Hh),
    (subject_full_stop_eq _ _ _ H), (subject_full_stop_eq _ _ _ Hh),
    strip_strip.
  repeat split.
Qed.

Lemma subject_checks_header_alone_witness :
  subject_case ("  fix: Some text  " ++ String Char.LF "body")
  = subject_case "fix: Some text".
Proof.
  apply (subject_checks_header_alone
           ("  fix: Some text  " ++ String Char.LF "body")
           "  fix: Some text  " ["body"] eq_refl).
  discriminate.
Defined.

(** ** The two embeddings of the subject-case check agree *)

Section Latin1.

Lemma of_string_cons (c : ascii) (r : string) :
  Unicode.of_string (String c r) = N_of_ascii c :: Unicode.of_string r.
Proof. reflexivity. Qed.

Lemma latin1_code (class : ascii -> bool) (c : ascii) :
  Unicode.latin1 class (N_of_ascii c) = class c.
Proof.
  unfold Unicode.latin1. rewrite ascii_N_embedding.
  pose proof (N_ascii_bounded c) as B. apply N.ltb_lt in B.
  rewrite B. reflexivity.
Qed.

Lemma code_eqb (c d : ascii) :
  (N_of_ascii c =? N_of_ascii d)%N = Ascii.eqb c d.
Proof.
  destruct (Ascii.eqb_spec c d) as [->|Hne]; [apply N.eqb_refl|].
  apply N.eqb_neq. intros E. apply Hne.
  rewrite <- (ascii_N_embedding c), <- (ascii_N_embedding d), E.
  reflexivity.
Qed.

Lemma of_string_push (c : ascii) (l : list string) :
  map Unicode.of_string (Str.push c l)
  = Unicode.push (N_of_ascii c) (map Unicode.of_string l).
Proof. destruct l; reflexivity. Qed.

Lemma of_string_is_empty (s : string) :
  Unicode.is_empty (Unicode.of_string s) = Str.is_empty s.
Proof. destruct s; reflexivity. Qed.

Lemma of_string_splitlines_from (s : string) :
  Unicode.splitlines_from (Unicode.latin1 Char.islinebreak)
    (Unicode.of_string s) false
  = map Unicode.of_string (Str.splitlines s)
  /\ Unicode.splitlines_from (Unicode.latin1 Char.islinebreak)
       (Unicode.of_string s) true
     = map Unicode.of_string
         (Str.splitlines
            match s with
            | EmptyString => ""
            | String c r => if Ascii.eqb c Char.LF then r else s
            end).
Proof.
  induction s as [|c r [IHf IHt]]; [split; reflexivity|].
  assert (F : Unicode.splitlines_from (Unicode.latin1 Char.islinebreak)
                (Unicode.of_string (String c r)) false
              = map Unicode.of_string (Str.splitlines (String c r))).
  { rewrite of_string_cons, splitlines_cons.
    cbn [Unicode.splitlines_from andb].
    change Unicode.CR with (N_of_ascii Char.CR).
    rewrite latin1_code, code_eqb.
    destruct (Ascii.eqb c Char.CR) eqn:Ec; cbn [andb].
    - apply Ascii.eqb_eq in Ec. subst c.
      change (Char.islinebreak Char.CR) with true. cbv iota.
      rewrite IHt. destruct r as [|d r']; [reflexivity|].
      cbn [Str.starts_with_char]. rewrite (Ascii.eqb_sym Char.LF d).
      destruct (Ascii.eqb d Char.LF) eqn:Ed; [|reflexivity].
      apply Ascii.eqb_eq in Ed. subst d. reflexivity.
    - destruct (Char.islinebreak c); rewrite IHf;
        [reflexivity|symmetry; apply of_string_push]. }
  split; [exact F|].
  destruct (Ascii.eqb c Char.LF) eqn:El.
  - rewrite of_string_cons. cbn [Unicode.splitlines_from andb].
    change Unicode.LF with (N_of_ascii Char.LF). rewrite code_eqb, El.
    exact IHf.
  - rewrite <- F. rewrite of_string_cons.
    cbn [Unicode.splitlines_from andb].
    change Unicode.LF with (N_of_ascii Char.LF). rewrite code_eqb, El.
    reflexivity.
Qed.

Lemma of_string_splitlines (s : string) :
  Unicode.splitlines (Unicode.latin1 Char.islinebreak) (Unicode.of_string s)
  = map Unicode.of_string (Str.splitlines s).
Proof. apply of_string_splitlines_from. Qed.

Lemma of_string_lstrip (s : string) :
  Unicode.lstrip (Unicode.latin1 Char.isspace) (Unicode.of_string s)
  = Unicode.of_string (Str.lstrip s).
Proof.
  induction s as [|c r IH]; [reflexivity|].
  rewrite of_string_cons. cbn [Unicode.lstrip Str.lstrip].
  rewrite latin1_code. destruct (Char.isspace c); [exact IH|reflexivity].
Qed.

Lemma of_string_rstrip (s : string) :
  Unicode.rstrip (Unicode.latin1 Char.isspace) (Unicode.of_string s)
  = Unicode.of_string (Str.rstrip s).
Proof.
  induction s as [|c r IH]; [reflexivity|].
  rewrite of_string_cons. cbn [Unicode.rstrip Str.rstrip].
  rewrite latin1_code, IH, of_string_is_empty.
  destruct (Char.isspace c && Str.is_empty (Str.rstrip r)); reflexivity.
Qed.

Lemma of_string_strip (s : string) :
  Unicode.strip (Unicode.latin1 Char.isspace) (Unicode.of_string s)
  = Unicode.of_string (Str.strip s).
Proof.
  unfold Unicode.strip, Str.strip.
  rewrite of_string_lstrip. apply of_string_rstrip.
Qed.

Lemma of_string_has_colon (s : string) :
  Unicode.has_colon (Unicode.of_string s) = Str.has_colon s.
Proof.
  induction s as [|c r IH]; [reflexivity|].
  rewrite of_string_cons. cbn [Unicode.has_colon Str.has_colon].
  change Unicode.colon with (N_of_ascii Char.colon).
  rewrite code_eqb, IH. reflexivity.
Qed.

Lemma of_string_after_last_colon (s : string) :
  Unicode.after_last_colon (Unicode.of_string s)
  = Unicode.of_string (Spec.after_last_colon s).
Proof.
  induction s as [|c r IH]; [reflexivity|].
  rewrite of_string_cons.
  cbn [Unicode.after_last_colon Spec.after_last_colon].
  change Unicode.colon with (N_of_ascii Char.colon).
  rewrite code_eqb, of_string_has_colon, IH.
  destruct (Str.has_colon r), (Ascii.eqb c Char.colon); reflexivity.
Qed.

Lemma of_string_islower_scan (s : string) (cased : bool) :
  Unicode.islower_scan (Unicode.latin1 Char.isupper)
    (Unicode.latin1 Char.istitle) (Unicode.latin1 Char.islower)
    (Unicode.of_string s) cased
  = Str.islower_scan s cased.
Proof.
  revert cased. induction s as [|c r IH]; intros cased; [reflexivity|].
  rewrite of_string_cons. cbn [Unicode.islower_scan Str.islower_scan].
  rewrite !latin1_code, IH. reflexivity.
Qed.

(** On 8-bit text, with the classes of the first embedding, the check
    on code points is the check on strings. *)
Lemma subject_case_latin1 (message : string) :
  Unicode.subject_case
    (Unicode.latin1 Char.isspace) (Unicode.latin1 Char.islinebreak)
    (Unicode.latin1 Char.isupper) (Unicode.latin1 Char.istitle)
    (Unicode.latin1 Char.islower) (Unicode.of_string message)
  = subject_case message.
Proof.
  pose proof (of_string_splitlines message) as Hl.
  destruct (Str.splitlines message) as [|l r] eqn:E; cbn [map] in Hl.
  - unfold Unicode.subject_case, subject_case. rewrite Hl, E. reflexivity.
  - rewrite (text_subject_case_eq _ _ _ _ _ _ _ _ Hl),
      (subject_case_eq _ _ _ E).
    rewrite of_string_strip, of_string_after_last_colon.
    unfold Unicode.str_islower. rewrite of_string_islower_scan.
    reflexivity.
Qed.

End Latin1.
